(** * packagetrack: the Amazon Logistics carrier backend

    A shallow embedding of [packagetrack/carriers/amzl_interface.py] and
    the properties its specification states about it.

    Conventions of the embedding.
    - Python strings are [string] (the package is Python 2 code: [str] is a
      byte string, and the classes [\d], [\w], [\s] of [re] are the ASCII
      ones because no [re.UNICODE] flag is given). The text [bs4] hands out
      is [unicode]; it is a [string] too, of the characters with code
      points below 256, and [strip] and [split] remove from it the
      characters [unicode.isspace] accepts in that range.
    - A Python value that is either a string or an integer (the query
      built by [_parse_tracking_number]) is a [pyval].
    - A Python [dict] with string keys is a [gmap string _].
    - Code that can raise returns a [result]; the exceptions are the
      constructors of [exn].
    - The network, the HTML parser and the clock are fields of a [World];
      the calls the code makes to them are recorded in a trace. *)

From Stdlib Require Import ZArith Ascii String DecimalString.
From stdpp Require Import gmap strings list fin_maps.

Local Open Scope Z_scope.

(** ** Characters and strings *)

Module Chars.

Definition code (c : ascii) : N := N_of_ascii c.

Definition between (lo hi c : ascii) : bool :=
  ((code lo <=? code c)%N && (code c <=? code hi)%N)%bool.

(** [\d] of [re] on a byte string: [0-9]. *)
Definition is_digit (c : ascii) : bool := between "0" "9" c.

Definition is_upper (c : ascii) : bool := between "A" "Z" c.
Definition is_lower (c : ascii) : bool := between "a" "z" c.

(** [\w] of [re] on a byte string: [a-zA-Z0-9_]. *)
Definition is_word (c : ascii) : bool :=
  (is_lower c || is_upper c || is_digit c || Ascii.eqb c "_")%bool.

(** [\s] of [re] in a pattern without flags: space, tab, newline,
    return, vertical tab, form feed. *)
Definition is_space (c : ascii) : bool :=
  (Ascii.eqb c " " || between "009" "013" c)%bool.

(** The characters [strip()] and [split()] remove from a [unicode] text,
    among the code points below 256: 9 to 13, 28 to 31 (the separators
    U+001C to U+001F), the space, U+0085 (next line) and U+00A0 (no-break
    space). *)
Definition is_uspace (c : ascii) : bool :=
  (between "009" "013" c || between "028" "031" c || Ascii.eqb c " " ||
   (code c =? 133)%N || (code c =? 160)%N)%bool.

(** [str.lower()] on one character. *)
Definition lower (c : ascii) : ascii :=
  if is_upper c then ascii_of_N (code c + 32) else c.

Definition digit_value (c : ascii) : Z := Z.of_N (code c) - 48.

End Chars.

Module Str.

Definition chars (s : string) : list ascii := list_ascii_of_string s.
Definition of_chars (l : list ascii) : string := string_of_list_ascii l.

(** [s.lower()] *)
Fixpoint lower (s : string) : string :=
  match s with
  | EmptyString => EmptyString
  | String c s' => String (Chars.lower c) (lower s')
  end.

(** [s.lstrip()], [s.rstrip()], [s.strip()] on a [unicode] text *)
Fixpoint lstrip (s : string) : string :=
  match s with
  | EmptyString => EmptyString
  | String c s' => if Chars.is_uspace c then lstrip s' else s
  end.

Fixpoint rstrip (s : string) : string :=
  match s with
  | EmptyString => EmptyString
  | String c s' =>
      match rstrip s' with
      | EmptyString => if Chars.is_uspace c then EmptyString else String c EmptyString
      | r => String c r
      end
  end.

Definition strip (s : string) : string := rstrip (lstrip s).

(** [sep.join(parts)] *)
Fixpoint join (sep : string) (parts : list string) : string :=
  match parts with
  | [] => EmptyString
  | [p] => p
  | p :: rest => p +:+ sep +:+ join sep rest
  end.

(** [s.split(sep)] for a one-character separator: the pieces between
    the separators, empty pieces included; never the empty list. *)
Fixpoint split (sep : ascii) (s : string) : list string :=
  match s with
  | EmptyString => [EmptyString]
  | String c s' =>
      if Ascii.eqb c sep then EmptyString :: split sep s'
      else match split sep s' with
           | p :: ps => String c p :: ps
           | [] => [String c EmptyString]
           end
  end.

(** [s.split()] on a [unicode] text: the maximal runs of non-whitespace
    characters. *)
Fixpoint words_go (cur : option string) (s : string) : list string :=
  match s with
  | EmptyString => match cur with Some w => [String.rev w] | None => [] end
  | String c s' =>
      if Chars.is_uspace c
      then match cur with
           | Some w => String.rev w :: words_go None s'
           | None => words_go None s'
           end
      else words_go (Some (String c (default EmptyString cur))) s'
  end.

Definition words (s : string) : list string := words_go None s.

(** [needle in s]: does [needle] start at the head of [s], ... *)
Fixpoint startswith (needle s : string) : bool :=
  match needle, s with
  | EmptyString, _ => true
  | String a n', String b s' => (Ascii.eqb a b && startswith n' s')%bool
  | String _ _, EmptyString => false
  end.

(** ... or somewhere later. *)
Fixpoint contains (needle s : string) : bool :=
  (startswith needle s ||
   match s with
   | EmptyString => false
   | String _ s' => contains needle s'
   end)%bool.

(** [str(n)] and ['%s' % n] for an integer. *)
Definition of_Z (n : Z) : string := NilZero.string_of_int (Z.to_int n).

Definition mem (x : string) (l : list string) : bool :=
  existsb (String.eqb x) l.

End Str.

(** ** Regular expressions, as [re.match] uses them *)

Module Re.

Inductive regex : Type :=
| Void : regex
| Eps : regex
| Class : (ascii -> bool) -> regex
| Cat : regex -> regex -> regex
| Alt : regex -> regex -> regex
| Star : regex -> regex.

(** The pieces of pattern syntax the source uses. *)
Definition Lit (c : ascii) : regex := Class (Ascii.eqb c).
Definition Opt (r : regex) : regex := Alt r Eps.
Definition Plus (r : regex) : regex := Cat r (Star r).
Fixpoint Rep (n : nat) (r : regex) : regex :=
  match n with
  | O => Eps
  | S n' => Cat r (Rep n' r)
  end.

(** The language of a pattern. *)
Inductive lang : regex -> list ascii -> Prop :=
| lang_eps : lang Eps []
| lang_class f c : f c = true -> lang (Class f) [c]
| lang_cat r1 r2 s1 s2 : lang r1 s1 -> lang r2 s2 -> lang (Cat r1 r2) (s1 ++ s2)
| lang_alt_l r1 r2 s : lang r1 s -> lang (Alt r1 r2) s
| lang_alt_r r1 r2 s : lang r2 s -> lang (Alt r1 r2) s
| lang_star_nil r : lang (Star r) []
| lang_star_app r s1 s2 : lang r s1 -> lang (Star r) s2 -> lang (Star r) (s1 ++ s2).

Fixpoint nullable (r : regex) : bool :=
  match r with
  | Void => false
  | Eps => true
  | Class _ => false
  | Cat r1 r2 => nullable r1 && nullable r2
  | Alt r1 r2 => nullable r1 || nullable r2
  | Star _ => true
  end.

Fixpoint deriv (c : ascii) (r : regex) : regex :=
  match r with
  | Void => Void
  | Eps => Void
  | Class f => if f c then Eps else Void
  | Cat r1 r2 =>
      if nullable r1 then Alt (Cat (deriv c r1) r2) (deriv c r2)
      else Cat (deriv c r1) r2
  | Alt r1 r2 => Alt (deriv c r1) (deriv c r2)
  | Star r1 => Cat (deriv c r1) (Star r1)
  end.

(** [re.match(r, s)] is not [None]: the pattern matches at the start of
    [s]; what follows the match is not looked at. *)
Fixpoint match_ (r : regex) (s : list ascii) : bool :=
  nullable r ||
  match s with
  | [] => false
  | c :: s' => match_ (deriv c r) s'
  end.

(** [re.fullmatch]-like: the pattern matches all of [s]. *)
Fixpoint fullmatch (r : regex) (s : list ascii) : bool :=
  match s with
  | [] => nullable r
  | c :: s' => fullmatch (deriv c r) s'
  end.

End Re.

(** ** The carrier backend: recognition *)

(** [_TN_REGEX = r'\d{3}-\d{7}-\d{7}(?::\w+)?'] *)
Definition _TN_REGEX : Re.regex :=
  Re.Cat (Re.Rep 3 (Re.Class Chars.is_digit))
 (Re.Cat (Re.Lit "-")
 (Re.Cat (Re.Rep 7 (Re.Class Chars.is_digit))
 (Re.Cat (Re.Lit "-")
 (Re.Cat (Re.Rep 7 (Re.Class Chars.is_digit))
         (Re.Opt (Re.Cat (Re.Lit ":") (Re.Plus (Re.Class Chars.is_word)))))))).

(** [identify]: [bool(re.match(self._TN_REGEX, tracking_number))] *)
Definition identify (tracking_number : string) : bool :=
  Re.match_ _TN_REGEX (Str.chars tracking_number).

(** The pattern as the specification writes it: three digits, a dash,
    seven digits, a dash, seven digits, and optionally a colon followed by
    one or more word characters. *)
Definition tn_shape (s : list ascii) : Prop :=
  exists a b c tok,
    length a = 3%nat /\ length b = 7%nat /\ length c = 7%nat /\
    Forall (fun x => Chars.is_digit x = true) (a ++ b ++ c) /\
    (tok = [] \/
     exists w, tok = ":"%char :: w /\ w <> [] /\
               Forall (fun x => Chars.is_word x = true) w) /\
    s = a ++ "-"%char :: b ++ "-"%char :: c ++ tok.

(** A string matches the pattern anchored at its start when it begins
    with a string of that shape. *)
Definition matches_at_start (s : string) : Prop :=
  exists p rest, Str.chars s = p ++ rest /\ tn_shape p.

(** ** Exceptions and results *)

Inductive exn : Type :=
| TrackingApiFailure (arg : string)
| TrackingNumberFailure (arg : string)
| InvalidTrackingNumber (arg : string)
| ValueError
| TypeError
| IndexError
| KeyError (key : string)
| OtherError (what : string).

Inductive result (A : Type) : Type :=
| Ok (a : A)
| Raise (e : exn).
Arguments Ok {A} a.
Arguments Raise {A} e.

#[global] Instance result_ret : MRet result := fun A a => Ok a.
#[global] Instance result_bind : MBind result := fun A B k m =>
  match m with
  | Ok a => k a
  | Raise e => Raise e
  end.

(** A loop that appends the items each element yields, stopping at the
    first exception. *)
Fixpoint collect {A B : Type} (f : A -> result (list B)) (l : list A)
  : result (list B) :=
  match l with
  | [] => Ok []
  | x :: l' => ys ← f x; zs ← collect f l'; Ok (ys ++ zs)
  end.

(** ** Tracking numbers and queries *)

Inductive pyval : Type :=
| PStr (s : string)
| PInt (n : Z).

(** [str.format] and ['%s' %] on a value. *)
Definition pyval_str (v : pyval) : string :=
  match v with
  | PStr s => s
  | PInt n => Str.of_Z n
  end.

(** [dict(pairs)]: later pairs overwrite earlier ones. *)
Definition dict {V : Type} (pairs : list (string * V)) : gmap string V :=
  fold_left (fun m kv => <[kv.1 := kv.2]> m) pairs ∅.

(** [_url_template_keys = ('order_id', 'item_id', 'package_idx')] *)
Definition _url_template_keys : list string :=
  ["order_id"; "item_id"; "package_idx"].

(** [_parse_tracking_number]:
    [parts = tracking_number.split(':')],
    [dict(zip(self._url_template_keys, list(parts) + [0, 0, 0]))] *)
Definition _parse_tracking_number (tracking_number : string)
  : gmap string pyval :=
  let parts := Str.split ":" tracking_number in
  dict (zip _url_template_keys (map PStr parts ++ [PInt 0; PInt 0; PInt 0])).

(** [_url_template.format(order_id=..., item_id=..., package_idx=...)] *)
Definition format_url (order_id item_id package_idx : pyval) : string :=
  "https://www.amazon.com/progress-tracker/package/?itemId=" +:+ pyval_str item_id
  +:+ "&orderId=" +:+ pyval_str order_id
  +:+ "&packageIndex=" +:+ pyval_str package_idx.

Definition format_field (kwargs : gmap string pyval) (key : string) : result pyval :=
  match kwargs !! key with
  | Some v => Ok v
  | None => Raise (KeyError key)
  end.

(** [url]: [self._url_template.format] applied to the keyword arguments
    [self._parse_tracking_number(tracking_number)]. *)
Definition url (tracking_number : string) : result string :=
  let kwargs := _parse_tracking_number tracking_number in
  i ← format_field kwargs "item_id";
  o ← format_field kwargs "order_id";
  p ← format_field kwargs "package_idx";
  Ok (format_url o i p).

(** ** Points in time and [datetime.strptime] *)

Record datetime : Type := mk_datetime {
  year : Z; month : Z; day : Z;
  hour : Z; minute : Z; second : Z; microsecond : Z
}.

Module Strptime.

(** A model of CPython's [_strptime] in the C locale, for the directives
    the two formats of the source use: the format is turned into a
    pattern ([TimeRE.pattern]), the pattern is matched at the start of the
    data the way a backtracking matcher does (alternatives in the order
    written, [\s+] greedy, letters compared without case), the match has
    to reach the end of the data, and the fields are converted and
    checked by the [datetime] constructor. A format with another
    directive is outside the model; [compile] rejects it. *)

(** The directives the two formats of the source use. *)
Inductive directive : Type := dI | dM | dp | dA | dB | dd | dY.

Definition directive_eqb (a b : directive) : bool :=
  match a, b with
  | dI, dI | dM, dM | dp, dp | dA, dA | dB, dB | dd, dd | dY, dY => true
  | _, _ => false
  end.

(** A format after [TimeRE.pattern]: a literal character, a run of
    whitespace (which becomes [\s+]), or a directive. *)
Inductive item : Type :=
| Lit (c : ascii)
| Space
| Dir (d : directive).

Definition directive_of (c : ascii) : option directive :=
  if Ascii.eqb c "I" then Some dI
  else if Ascii.eqb c "M" then Some dM
  else if Ascii.eqb c "p" then Some dp
  else if Ascii.eqb c "A" then Some dA
  else if Ascii.eqb c "B" then Some dB
  else if Ascii.eqb c "d" then Some dd
  else if Ascii.eqb c "Y" then Some dY
  else None.

(** [TimeRE.pattern]; [None] is the [ValueError] for a stray [%] or a
    directive it does not know. *)
Fixpoint compile (fmt : list ascii) : option (list item) :=
  match fmt with
  | [] => Some []
  | c :: rest =>
      if Ascii.eqb c "%" then
        match rest with
        | [] => None
        | d :: rest' =>
            match directive_of d, compile rest' with
            | Some dir, Some its => Some (Dir dir :: its)
            | _, _ => None
            end
        end
      else
        match compile rest with
        | None => None
        | Some its =>
            if Chars.is_space c then
              match its with
              | Space :: _ => Some its
              | _ => Some (Space :: its)
              end
            else Some (Lit c :: its)
        end
  end.

(** One alternative of a directive's group: a character class per
    position. *)
Definition alternative : Type := list (ascii -> bool).

Definition one (c : ascii) : ascii -> bool := Ascii.eqb c.
Definition digit : ascii -> bool := Chars.is_digit.
Definition range (lo hi : ascii) : ascii -> bool := Chars.between lo hi.

(** A name of the locale, matched with [re.IGNORECASE]. *)
Definition name (s : string) : alternative :=
  map (fun c x => Ascii.eqb (Chars.lower x) (Chars.lower c)) (Str.chars s).

(** [LocaleTime.f_weekday], [f_month] and [am_pm] of the C locale. *)
Definition f_weekday : list string :=
  ["monday"; "tuesday"; "wednesday"; "thursday"; "friday"; "saturday"; "sunday"].
Definition f_month : list string :=
  [""; "january"; "february"; "march"; "april"; "may"; "june"; "july";
   "august"; "september"; "october"; "november"; "december"].
Definition am_pm : list string := ["am"; "pm"].

(** [sorted(to_convert, key=len, reverse=True)]: a stable insertion
    sort, longest first. *)
Fixpoint insert_by_len (s : string) (l : list string) : list string :=
  match l with
  | [] => [s]
  | t :: l' =>
      if (String.length t <=? String.length s)%nat then s :: l
      else t :: insert_by_len s l'
  end.

Definition sort_by_len (l : list string) : list string :=
  foldr insert_by_len [] l.

Definition seqToRE (to_convert : list string) : list alternative :=
  map name (sort_by_len to_convert).

(** The groups of [TimeRE], alternatives in the order written there:
    [I: 1[0-2]|0[1-9]|[1-9]], [M: [0-5]\d|\d],
    [d: 3[0-1]|[1-2]\d|0[1-9]|[1-9]| [1-9]], [Y: \d\d\d\d]. *)
Definition group (d : directive) : list alternative :=
  match d with
  | dI => [[one "1"; range "0" "2"]; [one "0"; range "1" "9"]; [range "1" "9"]]
  | dM => [[range "0" "5"; digit]; [digit]]
  | dd => [[one "3"; range "0" "1"]; [range "1" "2"; digit];
           [one "0"; range "1" "9"]; [range "1" "9"]; [one " "; range "1" "9"]]
  | dY => [[digit; digit; digit; digit]]
  | dp => seqToRE am_pm
  | dA => seqToRE f_weekday
  | dB => seqToRE (tail f_month)
  end.

(** Match one alternative at the head of [s]: the text it consumed and
    what is left. *)
Fixpoint eat (alt : alternative) (s : list ascii)
  : option (list ascii * list ascii) :=
  match alt, s with
  | [], _ => Some ([], s)
  | p :: alt', c :: s' =>
      if p c then
        match eat alt' s' with
        | Some (m, rest) => Some (c :: m, rest)
        | None => None
        end
      else None
  | _ :: _, [] => None
  end.

(** [\s+], greedy: the longest run first, then shorter ones. *)
Fixpoint spaces (s : list ascii) : list (list ascii) :=
  match s with
  | c :: s' => if Chars.is_space c then spaces s' ++ [s'] else []
  | [] => []
  end.

Definition captures : Type := list (directive * list ascii).

(** The ways one item matches at the head of [s], in the order a
    backtracking matcher tries them. *)
Definition step (it : item) (caps : captures) (s : list ascii)
  : list (captures * list ascii) :=
  match it with
  | Lit c =>
      match s with
      | x :: s' =>
          if Ascii.eqb (Chars.lower x) (Chars.lower c) then [(caps, s')] else []
      | [] => []
      end
  | Space => map (fun s' => (caps, s')) (spaces s)
  | Dir d =>
      omap (fun alt =>
              match eat alt s with
              | Some (m, rest) => Some ((d, m) :: caps, rest)
              | None => None
              end) (group d)
  end.

Fixpoint run (its : list item) (caps : captures) (s : list ascii)
  : list (captures * list ascii) :=
  match its with
  | [] => [(caps, s)]
  | it :: its' =>
      flat_map (fun '(caps', s') => run its' caps' s') (step it caps s)
  end.

Definition found (caps : captures) (d : directive) : option (list ascii) :=
  snd <$> List.find (fun p => directive_eqb (fst p) d) caps.

(** [int(text)] on the digit strings the groups capture (the last
    alternative of [d] has a leading space, which [int] ignores). *)
Definition int (text : list ascii) : Z :=
  fold_left (fun acc c => if Chars.is_digit c then 10 * acc + Chars.digit_value c else acc)
            text 0.

(** [list.index(text.lower())] *)
Fixpoint index_of (text : string) (l : list string) : option Z :=
  match l with
  | [] => None
  | x :: l' => if String.eqb x text then Some 0 else Z.succ <$> index_of text l'
  end.

Definition is_leap (y : Z) : bool :=
  ((y mod 4 =? 0) && (negb (y mod 100 =? 0) || (y mod 400 =? 0)))%bool.

Definition days_in_month (y m : Z) : Z :=
  if m =? 2 then (if is_leap y then 29 else 28)
  else if (m =? 4) || (m =? 6) || (m =? 9) || (m =? 11) then 30
  else 31.

(** The checks of the [datetime] constructor that the parsed fields can
    fail: [MINYEAR <= year] and the day within its month. *)
Definition valid_date (y m d : Z) : bool :=
  ((1 <=? y) && (y <=? 9999) && (1 <=? m) && (m <=? 12) &&
   (1 <=? d) && (d <=? days_in_month y m))%bool.

(** The fields [_strptime] computes from the groups that matched. *)
Definition build (caps : captures) : option datetime :=
  let num d dflt := from_option int dflt (found caps d) in
  let y := num dY 1900 in
  let d := num dd 1 in
  let mi := num dM 0 in
  let m :=
    match found caps dB with
    | Some t => index_of (Str.lower (Str.of_chars t)) f_month
    | None => Some 1
    end in
  let h :=
    match found caps dI with
    | None => 0
    | Some t =>
        let h := int t in
        let ampm := from_option (fun t => Str.lower (Str.of_chars t)) "" (found caps dp) in
        if (String.eqb ampm "" || String.eqb ampm "am")%bool
        then (if h =? 12 then 0 else h)
        else if String.eqb ampm "pm"
        then (if h =? 12 then h else h + 12)
        else h
    end in
  match m with
  | Some m =>
      if valid_date y m d
      then Some (mk_datetime y m d h mi 0 0)
      else None
  | None => None
  end.

(** [datetime.datetime.strptime(data_string, format)]; [None] stands for
    the [ValueError] it raises: the format's pattern is matched at the
    start of the data, and the match has to end where the data ends. *)
Definition strptime (data_string format : string) : option datetime :=
  match compile (Str.chars format) with
  | None => None
  | Some its =>
      match run its [] (Str.chars data_string) with
      | [] => None
      | (caps, rest) :: _ =>
          match rest with
          | [] => build caps
          | _ :: _ => None
          end
      end
  end.

End Strptime.

(** [_parse_timestamp]. [now_year] is [datetime.datetime.now().year]. The
    last handler calls [datetime.datetime()] with no arguments, which
    raises [TypeError]: the constructor requires year, month and day. *)
Definition _parse_timestamp (now_year : Z) (timestamp : string)
    (year : option string) : result datetime :=
  let year := match year with None => Str.of_Z now_year | Some y => y end in
  let timestamp := Str.join " " [timestamp; year] in
  match Strptime.strptime timestamp "%I:%M %p %A, %B %d %Y" with
  | Some t => Ok t
  | None =>
      match Strptime.strptime timestamp "%A, %B %d %Y" with
      | Some t => Ok t
      | None => Raise TypeError
      end
  end.

(** ** The parsed page *)

(** What [bs4] builds from the page: text nodes and elements with an
    optional [id], the list of their classes, and their children. *)
#[warnings="-register-all"]
Inductive node : Type :=
| NText (s : string)
| NTag (name : string) (id : option string) (classes : list string)
       (children : list node).

Module Soup.

Definition children (n : node) : list node :=
  match n with
  | NText _ => []
  | NTag _ _ _ ch => ch
  end.

(** [tag.attrs['class']] *)
Definition classes (n : node) : list string :=
  match n with
  | NText _ => []
  | NTag _ _ cls _ => cls
  end.

Definition has_class (c : string) (n : node) : bool := Str.mem c (classes n).

Definition has_id (i : string) (n : node) : bool :=
  match n with
  | NTag _ (Some j) _ _ => String.eqb i j
  | _ => false
  end.

(** The elements of a subtree in document order, its root first. *)
Fixpoint elements (n : node) : list node :=
  match n with
  | NText _ => []
  | NTag _ _ _ ch => n :: flat_map elements ch
  end.

Definition descendants (n : node) : list node :=
  flat_map elements (children n).

(** [tag.text]: the strings of the subtree, concatenated. *)
Fixpoint text (n : node) : string :=
  match n with
  | NText s => s
  | NTag _ _ _ ch => foldr (fun c acc => text c +:+ acc) EmptyString ch
  end.

(** The keyword the source passes to [find]. *)
Inductive criterion : Type :=
| class_ (c : string)
| id_ (i : string).

Definition meets (k : criterion) (n : node) : bool :=
  match k with
  | class_ c => has_class c n
  | id_ i => has_id i n
  end.

(** [tag.find(...)]: the first descendant that meets the criterion. *)
Definition find (k : criterion) (n : node) : option node :=
  List.find (meets k) (descendants n).

(** [tag.select('.a-spacing-large')] *)
Definition select_class (c : string) (n : node) : list node :=
  List.filter (has_class c) (descendants n).

(** [soup.select('#i > * > .c')]: the elements of class [c] whose
    parent is a child of an element with id [i], in document order.
    [g] and [p] tell whether the grandparent and the parent of [n] have
    the id. *)
Fixpoint select_grandchildren (i c : string) (g p : bool) (n : node)
  : list node :=
  match n with
  | NText _ => []
  | NTag _ _ _ ch =>
      (if (g && has_class c n)%bool then [n] else []) ++
      flat_map (select_grandchildren i c p (has_id i n)) ch
  end.

End Soup.

(** [_find]: the stripped text of the first match, [''] when there is
    none (the [AttributeError] of [None.text] is caught). *)
Definition _find (tag : node) (k : Soup.criterion) : string :=
  match Soup.find k tag with
  | Some t => Str.strip (Soup.text t)
  | None => EmptyString
  end.

Record RawEvent : Type := mk_raw_event {
  ev_timestamp : datetime;
  ev_message : string;
  ev_location : string
}.

Record RawPageData : Type := mk_page_data {
  pd_id : string;
  pd_primary_status : string;
  pd_secondary_status : string;
  pd_milestone_message : string;
  pd_exception_source : string;
  pd_exception_message : string;
  pd_events : list RawEvent
}.

Definition _IGNORE_TAG_CLASSES : list string :=
  ["tracking-event-carrier-header"; "tracking-event-trackingId-text";
   "tracking-event-timezoneLabel"].

(** [all(attr not in tag.attrs['class'] for attr in self._IGNORE_TAG_CLASSES)] *)
Definition not_ignored (tag : node) : bool :=
  forallb (fun attr => negb (Str.mem attr (Soup.classes tag))) _IGNORE_TAG_CLASSES.

(** [soup.select('#tracking-events-container > * > .a-row')] *)
Definition select_containers (soup : node) : list node :=
  Soup.select_grandchildren "tracking-events-container" "a-row" false false soup.

(** [container_tag.select('.a-spacing-large')] *)
Definition select_rows (container_tag : node) : list node :=
  Soup.select_class "a-spacing-large" container_tag.

(** The dictionary the comprehension builds for one sub-row: the time is
    read from the sub-row, the date from its container. *)
Definition raw_event (now_year : Z) (container_tag tag : node) : result RawEvent :=
  t ← _parse_timestamp now_year
        (Str.strip (Str.join " "
           [_find tag (Soup.class_ "tracking-event-time");
            _find container_tag (Soup.class_ "tracking-event-date")]))
        None;
  Ok (mk_raw_event t
        (_find tag (Soup.class_ "tracking-event-message"))
        (_find tag (Soup.class_ "tracking-event-location"))).

(** The inner loop of the list comprehension of
    [_parse_tracking_response]: the sub-rows of one container. *)
Definition row_events (now_year : Z) (container_tag : node) (rows : list node)
  : result (list RawEvent) :=
  collect (fun tag =>
    if not_ignored tag then
      e ← raw_event now_year container_tag tag; Ok [e]
    else Ok [])
    rows.

(** The list comprehension of [_parse_tracking_response]. *)
Definition page_events (now_year : Z) (soup : node) : result (list RawEvent) :=
  collect (fun container_tag =>
    if not_ignored container_tag then
      row_events now_year container_tag (select_rows container_tag)
    else Ok [])
    (select_containers soup).

(** [s.split()[-1]] *)
Definition last_word (s : string) : result string :=
  match last (Str.words s) with
  | Some w => Ok w
  | None => Raise IndexError
  end.

(** [_parse_tracking_response] *)
Definition _parse_tracking_response (now_year : Z) (soup : node)
  : result RawPageData :=
  i ← last_word (_find soup (Soup.class_ "carrierRelatedInfo-trackingId-text"));
  let primary := _find soup (Soup.id_ "primaryStatus") in
  let secondary := _find soup (Soup.id_ "secondaryStatus") in
  let milestone := _find soup (Soup.class_ "milestone-primaryMessage") in
  let source := _find soup (Soup.class_ "lastExceptionSource") in
  let message := _find soup (Soup.class_ "lastExceptionExplanation") in
  evs ← page_events now_year soup;
  Ok (mk_page_data i primary secondary milestone source message evs).

(** ** The world outside and the trace of calls into it *)

Record response : Type := mk_response {
  ok : bool;
  status_code : Z;
  content : string
}.

Record World : Type := mk_world {
  (** [requests.get(url, timeout=10.0)]: the exception it raised, or the
      response. *)
  http_get : string -> string + response;
  (** [bs4.BeautifulSoup(content, 'html.parser')], taken to build a tree
      from every body *)
  html_parser : string -> node;
  (** [datetime.datetime.now().year] *)
  now_year : Z
}.

Inductive action : Type :=
| Fetch (url : string)
| ParseHtml (body : string).

(** A computation: the calls it made, and how it ended. *)
Definition comp (A : Type) : Type := list action * result A.

#[global] Instance comp_ret : MRet comp := fun A a => ([], Ok a).
#[global] Instance comp_bind : MBind comp := fun A B k m =>
  match m with
  | (t, Ok a) => let '(t', r) := k a in (t ++ t', r)
  | (t, Raise e) => (t, Raise e)
  end.

Definition raise {A : Type} (e : exn) : comp A := ([], Raise e).
Definition lift {A : Type} (r : result A) : comp A := ([], r).
Definition emit (a : action) : comp unit := ([a], Ok tt).

(** [_get_tracking_data] *)
Definition _get_tracking_data (w : World) (order_id item_id package_idx : pyval)
  : comp RawPageData :=
  let tracking_url := format_url order_id item_id package_idx in
  _ ← emit (Fetch tracking_url);
  match http_get w tracking_url with
  | inl err => raise (TrackingApiFailure err)
  | inr response =>
      if negb (ok response) then
        raise (TrackingApiFailure
                 ("Amazon returned HTTP status: " +:+ Str.of_Z (status_code response)))
      else if negb (Str.contains "carrierRelatedInfo-trackingId-text" (content response)) then
        raise (TrackingNumberFailure "No shipment found")
      else
        _ ← emit (ParseHtml (content response));
        let soup := html_parser w (content response) in
        lift (_parse_tracking_response (now_year w) soup)
  end.

(** The call [self._get_tracking_data( ** kwargs)]: [order_id] is
    required, the other two parameters default to [0], and a keyword the
    function does not have is a [TypeError]. *)
Definition _get_tracking_data_kw (w : World) (kwargs : gmap string pyval)
  : comp RawPageData :=
  if negb (forallb (fun k => Str.mem k _url_template_keys) (map fst (map_to_list kwargs)))
  then raise TypeError
  else
    match kwargs !! "order_id" with
    | None => raise TypeError
    | Some order_id =>
        _get_tracking_data w order_id
          (default (PInt 0) (kwargs !! "item_id"))
          (default (PInt 0) (kwargs !! "package_idx"))
    end.

(** ** The generic tracking record *)

Record TrackingEvent : Type := mk_event {
  timestamp : datetime;
  location : string;
  detail : string
}.

(** Modelled from the spec: the class [TrackingInfo] of
    [packagetrack/data.py] is not among the sources. The specification
    gives it an identity (the tracking number), an ordered sequence of
    events, a delivered flag and a delivery date that is present only
    when delivered. *)
Record TrackingInfo : Type := mk_info {
  info_tracking_number : string;
  events : list TrackingEvent;
  info_is_delivered : bool;
  delivery_date : option datetime
}.

(** Modelled from the spec: the constructor of [TrackingInfo] "from a
    tracking-number identity": no events, not delivered, no delivery
    date. *)
Definition new_info (tn : string) : TrackingInfo := mk_info tn [] false None.

(** Modelled from the spec: [TrackingInfo.create_event], the "append
    event" operation taking location, timestamp and detail. *)
Definition create_event (info : TrackingInfo) (loc : string) (ts : datetime)
    (det : string) : TrackingInfo :=
  mk_info (info_tracking_number info) (events info ++ [mk_event ts loc det])
          (info_is_delivered info) (delivery_date info).

(** Modelled from the spec: the attributes [status] and [last_update] of
    [TrackingInfo], which [packagetrack/data.py] derives from the
    recorded events. The specification does not say how [status] is
    derived, so it is taken as it comes; what it says of [last_update]
    is [last_update_is_most_recent] below. Both may raise. *)
Record Accessors : Type := mk_accessors {
  status : list TrackingEvent -> result string;
  last_update : list TrackingEvent -> result datetime
}.


(** ** The carrier backend: tracking *)

(** The body of [is_delivered] once [tracking_info] is at hand:
    [tracking_info.status.lower() == 'delivered'] *)
Definition status_is_delivered (acc : Accessors) (info : TrackingInfo) : result bool :=
  s ← status acc (events info);
  Ok (String.eqb (Str.lower s) "delivered").

(** [track]. The expression [BaseInterface.require_valid_tracking_number]
    that precedes the [def] is a statement of its own (it has no [@]), so
    the function is not wrapped. *)
Definition track (acc : Accessors) (w : World) (tracking_number : string)
  : comp TrackingInfo :=
  let info := new_info tracking_number in
  data ← _get_tracking_data_kw w (_parse_tracking_number tracking_number);
  let info :=
    fold_left (fun info event =>
                 create_event info (ev_location event) (ev_timestamp event)
                              (ev_message event))
              (pd_events data) info in
  delivered ← lift (status_is_delivered acc info);
  let info := mk_info (info_tracking_number info) (events info) delivered
                      (delivery_date info) in
  if delivered then
    d ← lift (last_update acc (events info));
    mret (mk_info (info_tracking_number info) (events info) (info_is_delivered info)
                  (Some d))
  else mret info.

(** [is_delivered] *)
Definition is_delivered (acc : Accessors) (w : World) (tracking_number : string)
    (tracking_info : option TrackingInfo) : comp bool :=
  tracking_info ← match tracking_info with
                  | None => track acc w tracking_number
                  | Some i => mret i
                  end;
  lift (status_is_delivered acc tracking_info).

(** Modelled from the spec: [BaseInterface.require_valid_tracking_number]
    of [packagetrack/carriers/__init__.py] is not among the sources. The
    specification describes it as the shared guard that rejects a
    tracking number the backend does not recognise before proceeding. *)
Definition require_valid_tracking_number {A : Type} (identify : string -> bool)
    (func : string -> comp A) (tracking_number : string) : comp A :=
  if identify tracking_number then func tracking_number
  else raise (InvalidTrackingNumber tracking_number).

(** ** Fixtures *)

Module Fixture.

(** A sub-row: its time, message and location in the elements the
    extractor reads. *)
Definition row (extra_classes : list string) (time msg loc : string) : node :=
  NTag "div" None ("a-spacing-large" :: extra_classes)
    [NTag "span" None ["tracking-event-time"] [NText time];
     NTag "span" None ["tracking-event-message"] [NText msg];
     NTag "span" None ["tracking-event-location"] [NText loc]].

(** An event container: the date shared by its sub-rows, then the
    sub-rows. *)
Definition container (extra_classes : list string) (date : string)
    (rows : list node) : node :=
  NTag "div" None ("a-row" :: extra_classes)
    (NTag "span" None ["tracking-event-date"] [NText date] :: rows).

Definition header_container : node :=
  container ["tracking-event-carrier-header"] "Shipped with Amazon"
    [row [] "" "Tracking ID: TBA000000000000" ""].

Definition ordinary_container : node :=
  container [] "Monday, June 10"
    [row [] "3:15 PM" "Delivered" "Detroit, MI";
     row [] "9:02 AM" "Out for delivery" "Detroit, MI"].

(** The page of the specification's extraction example: a header
    container and an ordinary container with two sub-rows. *)
Definition page : node :=
  NTag "[document]" None []
    [NTag "span" None ["carrierRelatedInfo-trackingId-text"]
       [NText "Tracking ID: TBA000000000000"];
     NTag "div" (Some "tracking-events-container") []
       [NTag "div" None [] [header_container; ordinary_container]]].

Definition delivered_event : RawEvent :=
  mk_raw_event (mk_datetime 2024 6 10 15 15 0 0) "Delivered" "Detroit, MI".

Definition out_for_delivery_event : RawEvent :=
  mk_raw_event (mk_datetime 2024 6 10 9 2 0 0) "Out for delivery" "Detroit, MI".

Definition body : string :=
  "<span class='carrierRelatedInfo-trackingId-text'>Tracking ID: TBA000000000000</span>".

(** A world in which every fetch succeeds with [body], which the parser
    turns into [page], in 2024. *)
Definition world : World :=
  mk_world (fun _ => inr (mk_response true 200 body)) (fun _ => page) 2024.

(** A world in which every fetch is answered with the given status and
    body. *)
Definition answering (is_ok : bool) (code : Z) (text : string) : World :=
  mk_world (fun _ => inr (mk_response is_ok code text)) (fun _ => page) 2024.

(** Modelled from the spec: accessors of a record that reports its most
    recent event, the first-listed one (sections 3 and 8): the status is
    the detail of that event and the last update its timestamp. *)
Definition accessors : Accessors :=
  mk_accessors
    (fun evs => match head evs with
                | Some e => Ok (detail e)
                | None => Raise IndexError
                end)
    (fun evs => match head evs with
                | Some e => Ok (timestamp e)
                | None => Raise IndexError
                end).

(** The record [track] builds from [page] with [accessors]. *)
Definition tracked_info : TrackingInfo :=
  mk_info "111-2222222-3333333"
    [mk_event (mk_datetime 2024 6 10 15 15 0 0) "Detroit, MI" "Delivered";
     mk_event (mk_datetime 2024 6 10 9 2 0 0) "Detroit, MI" "Out for delivery"]
    true
    (Some (mk_datetime 2024 6 10 15 15 0 0)).

Definition tracked_url : string :=
  "https://www.amazon.com/progress-tracker/package/?itemId=0&orderId=111-2222222-3333333&packageIndex=0".

(** A page whose only event row carries a date the carrier did not
    write in either of the two formats. *)
Definition undated_page : node :=
  NTag "[document]" None []
    [NTag "span" None ["carrierRelatedInfo-trackingId-text"]
       [NText "Tracking ID: TBA000000000000"];
     NTag "div" (Some "tracking-events-container") []
       [NTag "div" None []
          [container [] "Yesterday" [row [] "3:15 PM" "Delivered" "Detroit, MI"]]]].

Definition undated_world : World :=
  mk_world (fun _ => inr (mk_response true 200 body)) (fun _ => undated_page) 2024.

(** A page with every class of the denylist on a container of its own and
    on a sub-row of the ordinary container, none of them with a time or a
    date that parses. *)
Definition decorated_page : node :=
  NTag "[document]" None []
    [NTag "span" None ["carrierRelatedInfo-trackingId-text"]
       [NText "Tracking ID: TBA000000000000"];
     NTag "div" (Some "tracking-events-container") []
       [NTag "div" None []
          [container ["tracking-event-carrier-header"] "Shipped with Amazon"
             [row [] "" "Carrier" ""];
           container ["tracking-event-trackingId-text"] "Tracking ID"
             [row [] "" "TBA000000000000" ""];
           container ["tracking-event-timezoneLabel"] "Times are local"
             [row [] "" "Time zone" ""];
           container [] "Monday, June 10"
             [row [] "3:15 PM" "Delivered" "Detroit, MI";
              row ["tracking-event-carrier-header"] "no time" "Carrier" "";
              row ["tracking-event-trackingId-text"] "no time" "TBA000000000000" "";
              row ["tracking-event-timezoneLabel"] "no time" "Time zone" "";
              row [] "9:02 AM" "Out for delivery" "Detroit, MI"]]]].

End Fixture.

(** ** The specification's vocabulary *)

(** The value the specification assigns to position [i] of the query:
    the [i]-th colon-separated segment, or [0] when there is none. *)
Definition segment_or_zero (parts : list string) (i : nat) : pyval :=
  match parts !! i with
  | Some p => PStr p
  | None => PInt 0
  end.

(** The three named fields of a TrackingQuery. *)
Definition query_keys : gset string := {[ "order_id"; "item_id"; "package_idx" ]}.

(** The sub-rows of a page in document order: container by container,
    and within a container in the order of its sub-rows. *)
Definition document_rows (soup : node) : list (node * node) :=
  flat_map (fun c => map (pair c) (select_rows c)) (select_containers soup).

(** The three classes of the denylist, as the specification names them:
    the carrier header, the tracking-id text and the timezone label. *)
Definition denylisted (c : string) : Prop :=
  c = "tracking-event-carrier-header" \/
  c = "tracking-event-trackingId-text" \/
  c = "tracking-event-timezoneLabel".

(** The class list of a tag intersects the denylist. *)
Definition denied (tag : node) : Prop :=
  exists c, c ∈ Soup.classes tag /\ denylisted c.

(** A sub-row survives when neither it nor its container is denied. *)
Definition survives (cr : node * node) : bool :=
  (not_ignored (fst cr) && not_ignored (snd cr))%bool.

(** What relates a sub-row (with its container) to the event it yields. *)
Definition yields (now : Z) (cr : node * node) (e : RawEvent) : Prop :=
  raw_event now (fst cr) (snd cr) = Ok e.

(** The generic event [track] records for a raw event. *)
Definition to_event (ev : RawEvent) : TrackingEvent :=
  mk_event (ev_timestamp ev) (ev_location ev) (ev_message ev).

(** [needle] occurs in [s]. *)
Definition occurs_in (needle s : string) : Prop :=
  exists before after, s = before +:+ needle +:+ after.

(** ** Further vocabulary and scenarios *)

(** A string without a colon. *)
Definition no_colon (s : string) : Prop := ~ In ":"%char (Str.chars s).

(** A point in time the [datetime] constructor accepts, at a whole
    minute. *)
Definition whole_minute (d : datetime) : Prop :=
  Strptime.valid_date (year d) (month d) (day d) = true /\
  0 <= hour d <= 23 /\ 0 <= minute d <= 59 /\
  second d = 0 /\ microsecond d = 0.

(** A text that one alternative of a group matches, character by
    character. *)
Definition matches_alternative (alt : Strptime.alternative) (m : list ascii) : Prop :=
  Forall2 (fun p c => p c = true) alt m.

(** A captured group holds a text that one of the alternatives of its
    directive matches. *)
Definition capture_ok (cap : Strptime.directive * list ascii) : Prop :=
  exists alt, In alt (Strptime.group (fst cap)) /\ matches_alternative alt (snd cap).

Module Scenario.

(** A world in which the fetch itself fails. *)
Definition unreachable : World :=
  mk_world (fun _ => inl "Connection timed out"%string) (fun _ => Fixture.page) 2024.

(** A page that mentions the marker only in a script, with no element of
    that class. *)
Definition page_without_id : node :=
  NTag "[document]" None []
    [NTag "script" None [] [NText "var c = 'carrierRelatedInfo-trackingId-text';"];
     NTag "div" (Some "tracking-events-container") []
       [NTag "div" None [] [Fixture.ordinary_container]]].

(** A world that answers every fetch with a body mentioning the marker,
    parsed into [page_without_id]. *)
Definition world_without_id : World :=
  mk_world
    (fun _ => inr (mk_response true 200
                     "<script>var c = 'carrierRelatedInfo-trackingId-text';</script>"))
    (fun _ => page_without_id) 2024.

End Scenario.

(** * Properties *)

(** ** Regular expressions *)

Module ReFacts.
Import Re.

Lemma lang_cat_inv r1 r2 s :
  lang (Cat r1 r2) s -> exists s1 s2, s = s1 ++ s2 /\ lang r1 s1 /\ lang r2 s2.
Proof. inversion 1; subst; eauto. Qed.

Lemma lang_alt_inv r1 r2 s : lang (Alt r1 r2) s -> lang r1 s \/ lang r2 s.
Proof. inversion 1; subst; auto. Qed.

Lemma lang_class_inv f s : lang (Class f) s -> exists c, s = [c] /\ f c = true.
Proof. inversion 1; subst; eauto. Qed.

Lemma lang_eps_inv s : lang Eps s -> s = [].
Proof. inversion 1; reflexivity. Qed.

Lemma lang_void_inv s : ~ lang Void s.
Proof. inversion 1. Qed.

Lemma nullable_lang r : nullable r = true <-> lang r [].
Proof.
  induction r as [| | f | r1 IH1 r2 IH2 | r1 IH1 r2 IH2 | r IH]; simpl.
  - split; [discriminate | intros H; inversion H].
  - split; [constructor | reflexivity].
  - split; [discriminate | intros H; inversion H].
  - rewrite andb_true_iff, IH1, IH2. split.
    + intros [H1 H2]. apply (lang_cat _ _ [] []); assumption.
    + intros H. apply lang_cat_inv in H as (s1 & s2 & E & H1 & H2).
      symmetry in E. apply app_eq_nil in E as [-> ->]. auto.
  - rewrite orb_true_iff, IH1, IH2. split.
    + intros [H | H]; [apply lang_alt_l | apply lang_alt_r]; assumption.
    + apply lang_alt_inv.
  - split; [constructor | reflexivity].
Qed.

(** A non-empty word of [r*] starts with a non-empty word of [r]. *)
Lemma lang_star_cons r c s :
  lang (Star r) (c :: s) ->
  exists s1 s2, s = s1 ++ s2 /\ lang r (c :: s1) /\ lang (Star r) s2.
Proof.
  intros H. remember (Star r) as q eqn:Eq. remember (c :: s) as w eqn:Ew.
  revert c s Ew.
  induction H as [| | | | | r' | r' s1 s2 H1 _ H2 IH2]; try discriminate.
  injection Eq as ->. intros c s Ew.
  destruct s1 as [| c1 s1]; simpl in Ew.
  - apply IH2; [reflexivity | assumption].
  - injection Ew as -> <-. eauto.
Qed.

Lemma deriv_sound c r : forall s, lang (deriv c r) s -> lang r (c :: s).
Proof.
  induction r as [| | f | r1 IH1 r2 IH2 | r1 IH1 r2 IH2 | r IH]; simpl; intros s H.
  - inversion H.
  - inversion H.
  - destruct (f c) eqn:Ef; [| inversion H].
    apply lang_eps_inv in H as ->. constructor; assumption.
  - destruct (nullable r1) eqn:En.
    + apply lang_alt_inv in H as [H | H].
      * apply lang_cat_inv in H as (s1 & s2 & -> & H1 & H2).
        apply (lang_cat _ _ (c :: s1) s2); auto.
      * apply (lang_cat _ _ [] (c :: s)); [| auto].
        apply nullable_lang; assumption.
    + apply lang_cat_inv in H as (s1 & s2 & -> & H1 & H2).
      apply (lang_cat _ _ (c :: s1) s2); auto.
  - apply lang_alt_inv in H as [H | H];
      [apply lang_alt_l | apply lang_alt_r]; auto.
  - apply lang_cat_inv in H as (s1 & s2 & -> & H1 & H2).
    apply (lang_star_app _ (c :: s1) s2); auto.
Qed.

Lemma deriv_complete c r : forall s, lang r (c :: s) -> lang (deriv c r) s.
Proof.
  induction r as [| | f | r1 IH1 r2 IH2 | r1 IH1 r2 IH2 | r IH]; simpl; intros s H.
  - inversion H.
  - inversion H.
  - apply lang_class_inv in H as (c' & E & Hf). injection E as <- ->.
    rewrite Hf. constructor.
  - apply lang_cat_inv in H as (s1 & s2 & E & H1 & H2).
    destruct s1 as [| c1 s1]; simpl in E.
    + subst s2. apply nullable_lang in H1 as ->. apply lang_alt_r; auto.
    + injection E as <- ->.
      destruct (nullable r1); [apply lang_alt_l |]; constructor; auto.
  - apply lang_alt_inv in H as [H | H];
      [apply lang_alt_l | apply lang_alt_r]; auto.
  - apply lang_star_cons in H as (s1 & s2 & -> & H1 & H2).
    constructor; auto.
Qed.

Lemma deriv_lang c r s : lang (deriv c r) s <-> lang r (c :: s).
Proof. split; [apply deriv_sound | apply deriv_complete]. Qed.

Lemma fullmatch_lang s : forall r, fullmatch r s = true <-> lang r s.
Proof.
  induction s as [| c s IH]; intros r; simpl.
  - apply nullable_lang.
  - rewrite IH. apply deriv_lang.
Qed.

(** [match_] succeeds exactly when some prefix is in the language. *)
Lemma match_prefix s : forall r,
  match_ r s = true <-> exists p rest, s = p ++ rest /\ lang r p.
Proof.
  induction s as [| c s IH]; intros r; simpl.
  - rewrite orb_false_r, nullable_lang. split.
    + intros H. exists [], []. auto.
    + intros (p & rest & E & H). symmetry in E.
      apply app_eq_nil in E as [-> _]. assumption.
  - rewrite orb_true_iff, nullable_lang, IH. split.
    + intros [H | (p & rest & -> & H)].
      * exists [], (c :: s). auto.
      * exists (c :: p), rest. split; [reflexivity |]. apply deriv_lang; assumption.
    + intros (p & rest & E & H). destruct p as [| c' p]; [left; assumption |].
      right. simpl in E. injection E as <- ->.
      exists p, rest. split; [reflexivity |]. apply deriv_lang; assumption.
Qed.

Lemma lang_lit c s : lang (Lit c) s <-> s = [c].
Proof.
  unfold Lit. split.
  - intros H. apply lang_class_inv in H as (c' & -> & E).
    apply Ascii.eqb_eq in E as ->. reflexivity.
  - intros ->. constructor. apply Ascii.eqb_refl.
Qed.

Lemma lang_rep_class f n : forall s,
  lang (Rep n (Class f)) s <->
  length s = n /\ Forall (fun x => f x = true) s.
Proof.
  induction n as [| n IH]; intros s; simpl.
  - split.
    + intros H. apply lang_eps_inv in H as ->. auto.
    + intros [E _]. destruct s; [constructor | discriminate].
  - split.
    + intros H. apply lang_cat_inv in H as (s1 & s2 & -> & H1 & H2).
      apply lang_class_inv in H1 as (c & -> & Hc).
      apply IH in H2 as [<- HF]. simpl. auto.
    + intros [E HF]. destruct s as [| c s]; [discriminate |].
      injection E as E. inversion HF; subst.
      apply (lang_cat _ _ [c] s); [constructor; assumption |].
      apply IH; auto.
Qed.

Lemma lang_star_class f s :
  lang (Star (Class f)) s <-> Forall (fun x => f x = true) s.
Proof.
  split.
  - intros H. remember (Star (Class f)) as q eqn:Eq.
    induction H as [| | | | | r' | r' s1 s2 H1 _ H2 IH2]; try discriminate.
    + constructor.
    + injection Eq as ->. apply lang_class_inv in H1 as (c & -> & Hc).
      simpl. constructor; auto.
  - induction 1 as [| c s Hc _ IH]; [constructor |].
    apply (lang_star_app _ [c] s); [constructor; assumption | assumption].
Qed.

Lemma lang_plus_class f s :
  lang (Plus (Class f)) s <-> s <> [] /\ Forall (fun x => f x = true) s.
Proof.
  unfold Plus. split.
  - intros H. apply lang_cat_inv in H as (s1 & s2 & -> & H1 & H2).
    apply lang_class_inv in H1 as (c & -> & Hc).
    apply lang_star_class in H2. simpl. split; [discriminate | auto].
  - intros [Hne HF]. destruct s as [| c s]; [contradiction |].
    inversion HF; subst.
    apply (lang_cat _ _ [c] s); [constructor; assumption |].
    apply lang_star_class; assumption.
Qed.

Lemma lang_opt r s : lang (Opt r) s <-> lang r s \/ s = [].
Proof.
  unfold Opt. split.
  - intros H. apply lang_alt_inv in H as [H | H]; [auto |].
    right. apply lang_eps_inv; assumption.
  - intros [H | ->]; [apply lang_alt_l; assumption | apply lang_alt_r; constructor].
Qed.

Lemma lang_cat_iff r1 r2 s :
  lang (Cat r1 r2) s <-> exists s1 s2, s = s1 ++ s2 /\ lang r1 s1 /\ lang r2 s2.
Proof.
  split; [apply lang_cat_inv |].
  intros (s1 & s2 & -> & H1 & H2). constructor; assumption.
Qed.

End ReFacts.

(** The pattern of the source denotes the shape the specification
    describes. *)
Lemma TN_REGEX_shape (p : list ascii) : Re.lang _TN_REGEX p <-> tn_shape p.
Proof.
  unfold _TN_REGEX, tn_shape. split.
  - intros H.
    apply ReFacts.lang_cat_inv in H as (a & s1 & -> & Ha & H).
    apply ReFacts.lang_cat_inv in H as (d1 & s2 & -> & Hd1 & H).
    apply ReFacts.lang_cat_inv in H as (b & s3 & -> & Hb & H).
    apply ReFacts.lang_cat_inv in H as (d2 & s4 & -> & Hd2 & H).
    apply ReFacts.lang_cat_inv in H as (c & tok & -> & Hc & Htok).
    apply ReFacts.lang_rep_class in Ha as [La Fa].
    apply ReFacts.lang_rep_class in Hb as [Lb Fb].
    apply ReFacts.lang_rep_class in Hc as [Lc Fc].
    apply ReFacts.lang_lit in Hd1 as ->. apply ReFacts.lang_lit in Hd2 as ->.
    exists a, b, c, tok. repeat split; try assumption.
    + rewrite !Forall_app. auto.
    + apply ReFacts.lang_opt in Htok as [Htok | ->]; [| left; reflexivity].
      right. apply ReFacts.lang_cat_inv in Htok as (d3 & w & -> & Hd3 & Hw).
      apply ReFacts.lang_lit in Hd3 as ->.
      apply ReFacts.lang_plus_class in Hw as [Hne HF].
      exists w. auto.
  - intros (a & b & c & tok & La & Lb & Lc & HF & Htok & ->).
    rewrite !Forall_app in HF. destruct HF as (Fa & Fb & Fc).
    apply Re.lang_cat; [apply ReFacts.lang_rep_class; auto |].
    apply (Re.lang_cat _ _ ["-"%char]); [apply ReFacts.lang_lit; reflexivity |].
    apply Re.lang_cat; [apply ReFacts.lang_rep_class; auto |].
    apply (Re.lang_cat _ _ ["-"%char]); [apply ReFacts.lang_lit; reflexivity |].
    apply Re.lang_cat; [apply ReFacts.lang_rep_class; auto |].
    apply ReFacts.lang_opt.
    destruct Htok as [-> | (w & -> & Hne & HFw)]; [right; reflexivity | left].
    apply (Re.lang_cat _ _ [":"%char]); [apply ReFacts.lang_lit; reflexivity |].
    apply ReFacts.lang_plus_class. auto.
Qed.

(** C3. For every string [s], [identify s] is true if and only if [s]
    matches the pattern [\d{3}-\d{7}-\d{7}(:\w+)?] anchored at the start of
    the string (it begins with three digits, a dash, seven digits, a dash,
    seven digits and optionally a colon and a word); it is false for all
    other strings. *)
Theorem identify_iff_matches_at_start (s : string) :
  (identify s = true <-> matches_at_start s) /\
  (identify s = false <-> ~ matches_at_start s).
Proof.
  assert (H : identify s = true <-> matches_at_start s).
  { unfold identify, matches_at_start. rewrite ReFacts.match_prefix.
    split; intros (p & rest & E & Hp); exists p, rest;
      (split; [exact E | apply TN_REGEX_shape; exact Hp]). }
  split; [exact H |].
  rewrite <- H. destruct (identify s); split; congruence.
Qed.

(** A string of exactly the shape is recognised. *)
Lemma identify_whole_match (s : string) : tn_shape (Str.chars s) -> identify s = true.
Proof.
  intros H. apply ReFacts.match_prefix. exists (Str.chars s), [].
  split; [rewrite app_nil_r; reflexivity | apply TN_REGEX_shape; exact H].
Qed.

Lemma chars_append (s t : string) : Str.chars (s +:+ t) = Str.chars s ++ Str.chars t.
Proof. induction s as [| c s IH]; simpl; [reflexivity | f_equal; exact IH]. Qed.

(** The pattern is anchored at the start only: text after a recognised
    tracking number is not examined. *)
Lemma identify_ignores_what_follows (s t : string) :
  identify s = true -> identify (s +:+ t) = true.
Proof.
  unfold identify. rewrite !ReFacts.match_prefix, chars_append.
  intros (p & rest & -> & H). exists p, (rest ++ Str.chars t).
  split; [rewrite app_assoc; reflexivity | exact H].
Qed.

(** ** Strings *)

Module StrFacts.

Lemma split_nonempty sep s : Str.split sep s <> [].
Proof.
  destruct s as [| c s]; simpl; [discriminate |].
  destruct (Ascii.eqb c sep); [discriminate |].
  destruct (Str.split sep s); discriminate.
Qed.

(** Joining the pieces with the separator gives the string back. *)
Lemma join_split sep s : Str.join (String sep EmptyString) (Str.split sep s) = s.
Proof.
  induction s as [| c s IH]; simpl; [reflexivity |].
  destruct (Ascii.eqb c sep) eqn:E.
  - apply Ascii.eqb_eq in E as ->.
    destruct (Str.split sep s) as [| p ps] eqn:Es.
    + exfalso. exact (split_nonempty _ _ Es).
    + simpl in IH |- *. rewrite IH. reflexivity.
  - destruct (Str.split sep s) as [| p ps] eqn:Es.
    + exfalso. exact (split_nonempty _ _ Es).
    + destruct ps as [| q qs]; simpl in IH |- *; rewrite <- IH; reflexivity.
Qed.

(** No piece contains the separator. *)
Lemma split_pieces sep s :
  Forall (fun p => ~ In sep (Str.chars p)) (Str.split sep s).
Proof.
  induction s as [| c s IH]; simpl.
  - repeat constructor. simpl. tauto.
  - destruct (Ascii.eqb c sep) eqn:E.
    + constructor; [simpl; tauto | exact IH].
    + destruct (Str.split sep s) as [| p ps].
      * repeat constructor. simpl. intros [-> | []].
        rewrite Ascii.eqb_refl in E. discriminate.
      * inversion IH as [| ? ? Hp Hps]; subst. constructor; [| exact Hps].
        simpl. intros [-> | H]; [| exact (Hp H)].
        rewrite Ascii.eqb_refl in E. discriminate.
Qed.

Lemma startswith_spec needle : forall s,
  Str.startswith needle s = true <-> exists after, s = needle +:+ after.
Proof.
  induction needle as [| a n IH]; intros s; simpl.
  - split; [intros _; exists s; reflexivity | reflexivity].
  - destruct s as [| b s].
    + split; [discriminate | intros (after & E); discriminate].
    + rewrite andb_true_iff, IH. split.
      * intros (E & after & ->). apply Ascii.eqb_eq in E as ->.
        exists after. reflexivity.
      * intros (after & E). injection E as -> ->.
        split; [apply Ascii.eqb_refl | exists after; reflexivity].
Qed.

(** [needle in s] is true exactly when [needle] occurs in [s]. *)
Lemma contains_spec needle : forall s,
  Str.contains needle s = true <-> occurs_in needle s.
Proof.
  unfold occurs_in.
  induction s as [| c s IH]; simpl.
  - rewrite orb_false_r, startswith_spec. split.
    + intros (after & E). exists EmptyString, after. exact E.
    + intros (before & after & E). destruct before; [| discriminate].
      exists after. exact E.
  - rewrite orb_true_iff, startswith_spec, IH. split.
    + intros [(after & E) | (before & after & ->)].
      * exists EmptyString, after. exact E.
      * exists (String c before), after. reflexivity.
    + intros (before & after & E). destruct before as [| b before].
      * left. exists after. exact E.
      * right. simpl in E. injection E as -> ->. exists before, after. reflexivity.
Qed.

End StrFacts.

(** ** Tracking numbers and queries *)

(** The query is the three keys bound to the first three values of the
    segments followed by three zeros. *)
Lemma parse_tracking_number_unfold (tn : string) :
  _parse_tracking_number tn =
  <["package_idx" := segment_or_zero (Str.split ":" tn) 2]>
    (<["item_id" := segment_or_zero (Str.split ":" tn) 1]>
       (<["order_id" := segment_or_zero (Str.split ":" tn) 0]> ∅)).
Proof.
  unfold _parse_tracking_number, segment_or_zero.
  pose proof (StrFacts.split_nonempty ":" tn) as Hne.
  destruct (Str.split ":" tn) as [| p0 [| p1 [| p2 rest]]]; [contradiction | ..];
    reflexivity.
Qed.

Lemma parse_tracking_number_lookup (tn : string) :
  _parse_tracking_number tn !! "order_id" = Some (segment_or_zero (Str.split ":" tn) 0) /\
  _parse_tracking_number tn !! "item_id" = Some (segment_or_zero (Str.split ":" tn) 1) /\
  _parse_tracking_number tn !! "package_idx" = Some (segment_or_zero (Str.split ":" tn) 2).
Proof.
  rewrite parse_tracking_number_unfold.
  repeat split; simplify_map_eq; reflexivity.
Qed.

Lemma parse_tracking_number_dom (tn : string) :
  dom (_parse_tracking_number tn) = query_keys.
Proof.
  rewrite parse_tracking_number_unfold, !dom_insert_L, dom_empty_L.
  unfold query_keys. set_solver.
Qed.

(** C7. Parsing a tracking number splits it on [:] (the segments joined
    by [:] give the string back and none contains a colon) and maps the
    segments positionally to [order_id], [item_id], [package_idx], a
    missing trailing segment defaulting to [0]; on
    ["111-2222222-3333333"] the query is that order id with item id and
    package index [0], and on ["111-2222222-3333333:ABC:5"] it is that
    order id with item id ["ABC"] and package index ["5"]. *)
Theorem parse_tracking_number_positional :
  (forall tn : string,
     Str.join ":" (Str.split ":" tn) = tn /\
     Forall (fun p => ~ In ":"%char (Str.chars p)) (Str.split ":" tn) /\
     _parse_tracking_number tn !! "order_id" = Some (segment_or_zero (Str.split ":" tn) 0) /\
     _parse_tracking_number tn !! "item_id" = Some (segment_or_zero (Str.split ":" tn) 1) /\
     _parse_tracking_number tn !! "package_idx" = Some (segment_or_zero (Str.split ":" tn) 2)) /\
  _parse_tracking_number "111-2222222-3333333" =
    {[ "order_id" := PStr "111-2222222-3333333"; "item_id" := PInt 0;
       "package_idx" := PInt 0 ]} /\
  _parse_tracking_number "111-2222222-3333333:ABC:5" =
    {[ "order_id" := PStr "111-2222222-3333333"; "item_id" := PStr "ABC";
       "package_idx" := PStr "5" ]}.
Proof.
  split; [| split].
  - intros tn. split; [apply StrFacts.join_split |].
    split; [apply StrFacts.split_pieces |].
    apply parse_tracking_number_lookup.
  - apply map_eq. intros k. rewrite parse_tracking_number_unfold.
    destruct (decide (k = "order_id")) as [-> | ?]; [reflexivity |].
    destruct (decide (k = "item_id")) as [-> | ?]; [reflexivity |].
    destruct (decide (k = "package_idx")) as [-> | ?]; [reflexivity |].
    by simplify_map_eq.
  - apply map_eq. intros k. rewrite parse_tracking_number_unfold.
    destruct (decide (k = "order_id")) as [-> | ?]; [reflexivity |].
    destruct (decide (k = "item_id")) as [-> | ?]; [reflexivity |].
    destruct (decide (k = "package_idx")) as [-> | ?]; [reflexivity |].
    by simplify_map_eq.
Qed.

(** C10. For every input string the query has exactly the three keys
    [order_id], [item_id], [package_idx]; segments beyond the third do
    not reach it: the query is determined by the first three segments,
    so a string with more than three segments yields the query of its
    first three, and no error. *)
Theorem parse_tracking_number_three_keys :
  (forall tn : string,
     dom (_parse_tracking_number tn) = query_keys /\
     size (_parse_tracking_number tn) = 3%nat) /\
  (forall tn tn' : string,
     take 3 (Str.split ":" tn) = take 3 (Str.split ":" tn') ->
     _parse_tracking_number tn = _parse_tracking_number tn') /\
  (forall tn : string,
     (3 < length (Str.split ":" tn))%nat ->
     exists a b c,
       take 3 (Str.split ":" tn) = [a; b; c] /\
       _parse_tracking_number tn =
         {[ "order_id" := PStr a; "item_id" := PStr b; "package_idx" := PStr c ]}) /\
  _parse_tracking_number "111-2222222-3333333:ABC:5:extra:more" =
    _parse_tracking_number "111-2222222-3333333:ABC:5".
Proof.
  assert (Htake : forall tn tn' : string,
            take 3 (Str.split ":" tn) = take 3 (Str.split ":" tn') ->
            _parse_tracking_number tn = _parse_tracking_number tn').
  { intros tn tn' E. rewrite !parse_tracking_number_unfold.
    assert (Hs : forall i, (i < 3)%nat ->
              segment_or_zero (Str.split ":" tn) i = segment_or_zero (Str.split ":" tn') i).
    { intros i Hi. unfold segment_or_zero.
      rewrite <- (lookup_take_lt (Str.split ":" tn) 3 i) by lia.
      rewrite <- (lookup_take_lt (Str.split ":" tn') 3 i) by lia.
      rewrite E. reflexivity. }
    rewrite (Hs 0%nat), (Hs 1%nat), (Hs 2%nat) by lia. reflexivity. }
  split; [| split; [exact Htake | split]].
  - intros tn. split; [apply parse_tracking_number_dom |].
    rewrite <- size_dom, parse_tracking_number_dom. reflexivity.
  - intros tn Hlen. rewrite parse_tracking_number_unfold.
    destruct (Str.split ":" tn) as [| a [| b [| c rest]]]; simpl in Hlen; try lia.
    exists a, b, c. split; [reflexivity |].
    unfold segment_or_zero. simpl.
    apply map_eq. intros k.
    destruct (decide (k = "order_id")) as [-> | ?]; [reflexivity |].
    destruct (decide (k = "item_id")) as [-> | ?]; [reflexivity |].
    destruct (decide (k = "package_idx")) as [-> | ?]; [reflexivity |].
    by simplify_map_eq.
  - apply Htake. reflexivity.
Qed.

(** ** Fetching *)

Lemma url_value (tn : string) :
  url tn = Ok (format_url (segment_or_zero (Str.split ":" tn) 0)
                          (segment_or_zero (Str.split ":" tn) 1)
                          (segment_or_zero (Str.split ":" tn) 2)).
Proof.
  unfold url, format_field.
  destruct (parse_tracking_number_lookup tn) as (-> & -> & ->). reflexivity.
Qed.

(** The keyword call of [track] always binds the three parameters. *)
Lemma get_tracking_data_kw_parsed (w : World) (tn : string) :
  _get_tracking_data_kw w (_parse_tracking_number tn) =
  _get_tracking_data w (segment_or_zero (Str.split ":" tn) 0)
                       (segment_or_zero (Str.split ":" tn) 1)
                       (segment_or_zero (Str.split ":" tn) 2).
Proof.
  unfold _get_tracking_data_kw.
  assert (Hkeys : forallb (fun k => Str.mem k _url_template_keys)
                    (map fst (map_to_list (_parse_tracking_number tn))) = true).
  { apply forallb_forall. intros k Hk.
    apply list_elem_of_In, list_elem_of_fmap in Hk as ([k' v] & -> & Hkv).
    apply elem_of_map_to_list in Hkv. simpl.
    assert (Hd : k' ∈ dom (_parse_tracking_number tn)) by (apply elem_of_dom; eauto).
    rewrite parse_tracking_number_dom in Hd. unfold query_keys in Hd.
    rewrite !elem_of_union, !elem_of_singleton in Hd.
    destruct Hd as [[-> | ->] | ->]; reflexivity. }
  rewrite Hkeys. simpl.
  destruct (parse_tracking_number_lookup tn) as (-> & -> & ->). reflexivity.
Qed.

Section Fetch.

Variables (w : World) (order_id item_id package_idx : pyval).

Lemma get_tracking_data_transport_error (err : string) :
  http_get w (format_url order_id item_id package_idx) = inl err ->
  _get_tracking_data w order_id item_id package_idx =
  ([Fetch (format_url order_id item_id package_idx)], Raise (TrackingApiFailure err)).
Proof. unfold _get_tracking_data. intros ->. reflexivity. Qed.

Lemma get_tracking_data_bad_status (r : response) :
  http_get w (format_url order_id item_id package_idx) = inr r -> ok r = false ->
  _get_tracking_data w order_id item_id package_idx =
  ([Fetch (format_url order_id item_id package_idx)],
   Raise (TrackingApiFailure
            ("Amazon returned HTTP status: " +:+ Str.of_Z (status_code r)))).
Proof.
  unfold _get_tracking_data. intros -> Hok.
  simpl. rewrite Hok. reflexivity.
Qed.

Lemma get_tracking_data_no_marker (r : response) :
  http_get w (format_url order_id item_id package_idx) = inr r -> ok r = true ->
  Str.contains "carrierRelatedInfo-trackingId-text" (content r) = false ->
  _get_tracking_data w order_id item_id package_idx =
  ([Fetch (format_url order_id item_id package_idx)], Raise (TrackingNumberFailure "No shipment found")).
Proof.
  unfold _get_tracking_data. intros -> Hok Hc.
  simpl. rewrite Hok, Hc. reflexivity.
Qed.

Lemma get_tracking_data_parsed (r : response) :
  http_get w (format_url order_id item_id package_idx) = inr r -> ok r = true ->
  Str.contains "carrierRelatedInfo-trackingId-text" (content r) = true ->
  _get_tracking_data w order_id item_id package_idx =
  ([Fetch (format_url order_id item_id package_idx); ParseHtml (content r)],
   _parse_tracking_response (now_year w) (html_parser w (content r))).
Proof.
  unfold _get_tracking_data. intros -> Hok Hc.
  simpl. rewrite Hok, Hc. simpl.
  destruct (_parse_tracking_response _ _); reflexivity.
Qed.

(** Whatever happens, the first thing done is the fetch. *)
Lemma get_tracking_data_fetches :
  exists t r, _get_tracking_data w order_id item_id package_idx =
              (Fetch (format_url order_id item_id package_idx) :: t, r).
Proof.
  destruct (http_get w (format_url order_id item_id package_idx)) as [err | r] eqn:Eg.
  - rewrite (get_tracking_data_transport_error err Eg). eauto.
  - destruct (ok r) eqn:Eo.
    + destruct (Str.contains "carrierRelatedInfo-trackingId-text" (content r)) eqn:Ec.
      * rewrite (get_tracking_data_parsed r Eg Eo Ec). eauto.
      * rewrite (get_tracking_data_no_marker r Eg Eo Ec). eauto.
    + rewrite (get_tracking_data_bad_status r Eg Eo). eauto.
Qed.

End Fetch.

(** A failure of the fetch is the outcome of [track]. *)
Lemma track_fetch_failure (acc : Accessors) (w : World) (tn : string)
    (t : list action) (e : exn) :
  _get_tracking_data w (segment_or_zero (Str.split ":" tn) 0)
                       (segment_or_zero (Str.split ":" tn) 1)
                       (segment_or_zero (Str.split ":" tn) 2) = (t, Raise e) ->
  track acc w tn = (t, Raise e).
Proof.
  intros H. unfold track. rewrite get_tracking_data_kw_parsed, H. reflexivity.
Qed.

(** C6. For every response to the fetch with a non-success HTTP status,
    [track] fails with [TrackingApiFailure] carrying that status code, and
    the trace holds the fetch alone: the body is not parsed. *)
Theorem track_bad_status_is_api_failure (acc : Accessors) (w : World)
    (tn u : string) (r : response) :
  url tn = Ok u ->
  http_get w u = inr r ->
  ok r = false ->
  track acc w tn =
  ([Fetch u],
   Raise (TrackingApiFailure
            ("Amazon returned HTTP status: " +:+ Str.of_Z (status_code r)))).
Proof.
  rewrite url_value. intros [= <-] Hget Hok.
  apply track_fetch_failure, get_tracking_data_bad_status; assumption.
Qed.

(** The 503 case of C6. *)
Lemma track_bad_status_503 :
  track Fixture.accessors (Fixture.answering false 503 "Service Unavailable")
        "111-2222222-3333333" =
  ([Fetch "https://www.amazon.com/progress-tracker/package/?itemId=0&orderId=111-2222222-3333333&packageIndex=0"],
   Raise (TrackingApiFailure "Amazon returned HTTP status: 503")).
Proof.
  exact (track_bad_status_is_api_failure
           Fixture.accessors (Fixture.answering false 503 "Service Unavailable")
           "111-2222222-3333333"
           "https://www.amazon.com/progress-tracker/package/?itemId=0&orderId=111-2222222-3333333&packageIndex=0"
           (mk_response false 503 "Service Unavailable")
           eq_refl eq_refl eq_refl).
Defined.

(** C5. For every response to the fetch that is HTTP-successful but
    whose body does not contain the marker text
    ["carrierRelatedInfo-trackingId-text"], [track] fails with
    [TrackingNumberFailure], and the trace holds the fetch alone: the body
    is not parsed. *)
Theorem track_missing_marker_is_number_failure (acc : Accessors) (w : World)
    (tn u : string) (r : response) :
  url tn = Ok u ->
  http_get w u = inr r ->
  ok r = true ->
  ~ occurs_in "carrierRelatedInfo-trackingId-text" (content r) ->
  track acc w tn = ([Fetch u], Raise (TrackingNumberFailure "No shipment found")).
Proof.
  rewrite url_value. intros [= <-] Hget Hok Hno.
  apply track_fetch_failure, (get_tracking_data_no_marker _ _ _ _ r); try assumption.
  destruct (Str.contains _ (content r)) eqn:Ec; [| reflexivity].
  exfalso. apply Hno, StrFacts.contains_spec. exact Ec.
Qed.

(** C5 on a successful response without the marker. *)
Lemma track_missing_marker_example :
  track Fixture.accessors
        (Fixture.answering true 200 "<html>We could not find that order</html>")
        "111-2222222-3333333" =
  ([Fetch "https://www.amazon.com/progress-tracker/package/?itemId=0&orderId=111-2222222-3333333&packageIndex=0"],
   Raise (TrackingNumberFailure "No shipment found")).
Proof.
  apply (track_missing_marker_is_number_failure
           Fixture.accessors
           (Fixture.answering true 200 "<html>We could not find that order</html>")
           "111-2222222-3333333"
           "https://www.amazon.com/progress-tracker/package/?itemId=0&orderId=111-2222222-3333333&packageIndex=0"
           (mk_response true 200 "<html>We could not find that order</html>")
           eq_refl eq_refl eq_refl).
  intros H. apply StrFacts.contains_spec in H. vm_compute in H. discriminate H.
Defined.

(** [track] starts with the fetch, whatever the tracking number. *)
Lemma track_always_fetches (acc : Accessors) (w : World) (tn u : string) :
  url tn = Ok u -> exists t r, track acc w tn = (Fetch u :: t, r).
Proof.
  rewrite url_value. intros [= <-]. unfold track.
  rewrite get_tracking_data_kw_parsed.
  destruct (get_tracking_data_fetches w (segment_or_zero (Str.split ":" tn) 0)
              (segment_or_zero (Str.split ":" tn) 1)
              (segment_or_zero (Str.split ":" tn) 2)) as (t & r & ->).
  destruct r as [data | e]; [| eauto].
  unfold mbind, comp_bind at 1.
  match goal with |- context [let '(_, _) := ?k in _] => destruct k as [t' r'] end.
  eauto.
Qed.

(** C1. The guard is not applied to [track]: on
    ["not-a-tracking-number"], which [identify] rejects, [track] fetches
    the carrier page, has it parsed and returns a record, where the
    guarded function would fail with a validation error and fetch
    nothing; and on every tracking number the first thing [track] does is
    the fetch. *)
Theorem track_is_not_guarded :
  identify "not-a-tracking-number" = false /\
  (exists info,
     track Fixture.accessors Fixture.world "not-a-tracking-number" =
     ([Fetch "https://www.amazon.com/progress-tracker/package/?itemId=0&orderId=not-a-tracking-number&packageIndex=0";
       ParseHtml Fixture.body], Ok info)) /\
  require_valid_tracking_number identify (track Fixture.accessors Fixture.world)
    "not-a-tracking-number" =
  ([], Raise (InvalidTrackingNumber "not-a-tracking-number")) /\
  (forall acc w tn u,
     url tn = Ok u -> exists t r, track acc w tn = (Fetch u :: t, r)).
Proof.
  split; [vm_compute; reflexivity |].
  split; [eexists; vm_compute; reflexivity |].
  split; [vm_compute; reflexivity |].
  exact track_always_fetches.
Qed.

(** ** Timestamps *)

(** The resolver in terms of the two parses. *)
Lemma parse_timestamp_unfold (now : Z) (ts : string) (y : option string) :
  _parse_timestamp now ts y =
  let text := ts +:+ " " +:+ default (Str.of_Z now) y in
  match Strptime.strptime text "%I:%M %p %A, %B %d %Y" with
  | Some t => Ok t
  | None =>
      match Strptime.strptime text "%A, %B %d %Y" with
      | Some t => Ok t
      | None => Raise TypeError
      end
  end.
Proof. unfold _parse_timestamp. destruct y; reflexivity. Qed.

(** When neither format parses, the resolver raises. *)
Lemma parse_timestamp_both_fail (now : Z) (ts : string) (y : option string) :
  Strptime.strptime (ts +:+ " " +:+ default (Str.of_Z now) y) "%I:%M %p %A, %B %d %Y" = None ->
  Strptime.strptime (ts +:+ " " +:+ default (Str.of_Z now) y) "%A, %B %d %Y" = None ->
  _parse_timestamp now ts y = Raise TypeError.
Proof. rewrite parse_timestamp_unfold. simpl. intros -> ->. reflexivity. Qed.

(** C2. On ["Arriving soon"] with year ["2024"] both formats fail to
    parse and the resolver raises [TypeError] instead of returning a
    value; the exception aborts the extraction of a page with such a row,
    and with it [track]. *)
Theorem parse_timestamp_raises_on_unparseable :
  Strptime.strptime "Arriving soon 2024" "%I:%M %p %A, %B %d %Y" = None /\
  Strptime.strptime "Arriving soon 2024" "%A, %B %d %Y" = None /\
  _parse_timestamp 2024 "Arriving soon" (Some "2024") = Raise TypeError /\
  _parse_tracking_response 2024 Fixture.undated_page = Raise TypeError /\
  snd (track Fixture.accessors Fixture.undated_world "111-2222222-3333333") =
    Raise TypeError.
Proof. repeat split; vm_compute; reflexivity. Qed.

(** C9. The resolver appends the year to the text and tries the format
    with a 12-hour time first, then the date-only format:
    ["3:15 PM Monday, June 10"] with year ["2024"] is June 10, 2024 at
    15:15, and ["Monday, June 10"] with year ["2024"] is June 10, 2024 at
    midnight (no time of day). *)
Theorem parse_timestamp_two_formats :
  (forall (now : Z) (ts y : string),
     _parse_timestamp now ts (Some y) =
     match Strptime.strptime (ts +:+ " " +:+ y) "%I:%M %p %A, %B %d %Y" with
     | Some t => Ok t
     | None =>
         match Strptime.strptime (ts +:+ " " +:+ y) "%A, %B %d %Y" with
         | Some t => Ok t
         | None => Raise TypeError
         end
     end) /\
  (forall (now : Z) (ts : string),
     _parse_timestamp now ts None = _parse_timestamp now ts (Some (Str.of_Z now))) /\
  Strptime.strptime "3:15 PM Monday, June 10 2024" "%I:%M %p %A, %B %d %Y" =
    Some (mk_datetime 2024 6 10 15 15 0 0) /\
  _parse_timestamp 2024 "3:15 PM Monday, June 10" (Some "2024") =
    Ok (mk_datetime 2024 6 10 15 15 0 0) /\
  Strptime.strptime "Monday, June 10 2024" "%I:%M %p %A, %B %d %Y" = None /\
  Strptime.strptime "Monday, June 10 2024" "%A, %B %d %Y" =
    Some (mk_datetime 2024 6 10 0 0 0 0) /\
  _parse_timestamp 2024 "Monday, June 10" (Some "2024") =
    Ok (mk_datetime 2024 6 10 0 0 0 0).
Proof.
  split; [intros now ts y; apply parse_timestamp_unfold |].
  split; [intros now ts; reflexivity |].
  repeat split; vm_compute; reflexivity.
Qed.

(** ** Extraction *)

Lemma denylisted_iff (c : string) : denylisted c <-> c ∈ _IGNORE_TAG_CLASSES.
Proof.
  unfold denylisted, _IGNORE_TAG_CLASSES.
  rewrite !elem_of_cons, elem_of_nil. tauto.
Qed.

Lemma not_ignored_false_iff (tag : node) : not_ignored tag = false <-> denied tag.
Proof.
  unfold not_ignored, denied. rewrite <- not_true_iff_false, forallb_forall.
  split.
  - intros H.
    destruct (existsb (fun attr => Str.mem attr (Soup.classes tag)) _IGNORE_TAG_CLASSES)
      eqn:Ex.
    + apply existsb_exists in Ex as (c & Hin & Hmem).
      unfold Str.mem in Hmem. apply existsb_exists in Hmem as (c' & Hin' & E).
      apply String.eqb_eq in E as <-.
      exists c. split; [apply list_elem_of_In; assumption |].
      apply denylisted_iff, list_elem_of_In. assumption.
    + exfalso. apply H. intros c Hin.
      destruct (Str.mem c (Soup.classes tag)) eqn:Em; [| reflexivity].
      assert (existsb (fun attr => Str.mem attr (Soup.classes tag)) _IGNORE_TAG_CLASSES = true)
        as Ex' by (apply existsb_exists; eauto).
      congruence.
  - intros (c & Hc & Hd) H. apply denylisted_iff in Hd.
    apply list_elem_of_In in Hc, Hd.
    specialize (H c Hd). apply negb_true_iff in H.
    assert (Str.mem c (Soup.classes tag) = true) as Hm.
    { unfold Str.mem. apply existsb_exists. exists c. split; [exact Hc |].
      apply String.eqb_refl. }
    congruence.
Qed.

Section Events.

Variable now : Z.

Lemma row_events_cons (c r : node) (rows : list node) :
  row_events now c (r :: rows) =
  if not_ignored r then
    match raw_event now c r with
    | Ok e =>
        match row_events now c rows with
        | Ok zs => Ok (e :: zs)
        | Raise x => Raise x
        end
    | Raise x => Raise x
    end
  else row_events now c rows.
Proof.
  unfold row_events. simpl. unfold mbind, result_bind.
  destruct (not_ignored r); [destruct (raw_event now c r); [| reflexivity] |];
    simpl; destruct (collect _ rows); reflexivity.
Qed.

Lemma row_events_ok (c : node) (rows : list node) : forall evs,
  row_events now c rows = Ok evs <->
  Forall2 (yields now) (map (pair c) (List.filter not_ignored rows)) evs.
Proof.
  induction rows as [| r rows IH]; intros evs.
  - simpl. split; [intros [= <-]; constructor | inversion 1; reflexivity].
  - rewrite row_events_cons. simpl List.filter.
    destruct (not_ignored r) eqn:Er; [| apply IH].
    simpl map. split.
    + destruct (raw_event now c r) as [e | x] eqn:Ee; [| discriminate].
      destruct (row_events now c rows) as [zs | x] eqn:El; [| discriminate].
      intros [= <-]. constructor; [exact Ee | apply IH; reflexivity].
    + inversion 1 as [| ? e ? zs Hy Hrest]; subst.
      unfold yields in Hy. simpl in Hy. rewrite Hy.
      apply IH in Hrest. rewrite Hrest. reflexivity.
Qed.

Lemma filter_survives_rows (c : node) (rows : list node) :
  List.filter survives (map (pair c) rows) =
  if not_ignored c then map (pair c) (List.filter not_ignored rows) else [].
Proof.
  unfold survives. induction rows as [| r rows IH]; simpl.
  - destruct (not_ignored c); reflexivity.
  - rewrite IH. destruct (not_ignored c), (not_ignored r); reflexivity.
Qed.

Lemma container_loop_ok (cs : list node) : forall evs,
  collect (fun c => if not_ignored c then row_events now c (select_rows c) else Ok []) cs
  = Ok evs <->
  Forall2 (yields now)
    (List.filter survives (flat_map (fun c => map (pair c) (select_rows c)) cs)) evs.
Proof.
  induction cs as [| c cs IH]; intros evs.
  - simpl. split; [intros [= <-]; constructor | inversion 1; reflexivity].
  - cbn [collect flat_map]. rewrite List.filter_app, filter_survives_rows.
    unfold mbind, result_bind.
    destruct (not_ignored c) eqn:Ec.
    + split.
      * destruct (row_events now c (select_rows c)) as [ys | x] eqn:Er; [| discriminate].
        destruct (collect _ cs) as [zs | x] eqn:Ecs; [| discriminate].
        intros [= <-]. apply Forall2_app; [apply row_events_ok; exact Er |].
        apply IH. reflexivity.
      * intros H. apply Forall2_app_inv_l in H as (ys & zs & Hy & Hz & ->).
        apply row_events_ok in Hy. apply IH in Hz. rewrite Hy, Hz. reflexivity.
    + simpl. split.
      * destruct (collect _ cs) as [zs | x] eqn:Ecs; [| discriminate].
        intros [= <-]. apply IH. reflexivity.
      * intros H. apply IH in H. rewrite H. reflexivity.
Qed.

(** The comprehension returns exactly the events of the surviving
    sub-rows, in document order. *)
Lemma page_events_ok (soup : node) (evs : list RawEvent) :
  page_events now soup = Ok evs <->
  Forall2 (yields now) (List.filter survives (document_rows soup)) evs.
Proof. apply container_loop_ok. Qed.

End Events.

(** C8. Event extraction skips every container and every sub-row whose
    class list holds one of [tracking-event-carrier-header],
    [tracking-event-trackingId-text], [tracking-event-timezoneLabel], and
    returns the events of the surviving sub-rows in document order
    (container order, then sub-row order within a container), one event
    per surviving sub-row and nothing else; on the fixture with a header
    container and an ordinary container with two sub-rows it returns
    exactly the two events of the ordinary container, in document order,
    and so it does on a page that carries each of the three classes on a
    container and on a sub-row. *)
Theorem extraction_skips_denied_in_document_order :
  (forall tag,
     not_ignored tag = false <->
     exists c, c ∈ Soup.classes tag /\
               (c = "tracking-event-carrier-header" \/
                c = "tracking-event-trackingId-text" \/
                c = "tracking-event-timezoneLabel")) /\
  (forall cr, survives cr = true <-> ~ denied (fst cr) /\ ~ denied (snd cr)) /\
  (forall now soup evs,
     page_events now soup = Ok evs <->
     Forall2 (yields now) (List.filter survives (document_rows soup)) evs) /\
  (forall now soup data,
     _parse_tracking_response now soup = Ok data ->
     Forall2 (yields now) (List.filter survives (document_rows soup)) (pd_events data)) /\
  (forall now soup i evs,
     last_word (_find soup (Soup.class_ "carrierRelatedInfo-trackingId-text")) = Ok i ->
     Forall2 (yields now) (List.filter survives (document_rows soup)) evs ->
     exists data, _parse_tracking_response now soup = Ok data /\ pd_events data = evs) /\
  select_containers Fixture.page =
    [Fixture.header_container; Fixture.ordinary_container] /\
  length (document_rows Fixture.page) = 3%nat /\
  (exists data,
     _parse_tracking_response 2024 Fixture.page = Ok data /\
     pd_events data = [Fixture.delivered_event; Fixture.out_for_delivery_event]) /\
  length (select_containers Fixture.decorated_page) = 4%nat /\
  length (document_rows Fixture.decorated_page) = 8%nat /\
  (exists data,
     _parse_tracking_response 2024 Fixture.decorated_page = Ok data /\
     pd_events data = [Fixture.delivered_event; Fixture.out_for_delivery_event]).
Proof.
  assert (Hden : forall tag, not_ignored tag = true <-> ~ denied tag).
  { intros tag. rewrite <- not_ignored_false_iff.
    destruct (not_ignored tag); split; congruence. }
  split; [exact not_ignored_false_iff |].
  split; [intros cr; unfold survives; rewrite andb_true_iff, !Hden; reflexivity |].
  split; [exact page_events_ok |].
  split; [| split; [| split; [| split; [| split; [| split; [| split]]]]]].
  - intros now soup data H. unfold _parse_tracking_response in H.
    destruct (last_word _) as [i | x]; [| discriminate]. simpl in H.
    destruct (page_events now soup) as [evs | x] eqn:Ee; [| discriminate].
    injection H as <-. apply page_events_ok. exact Ee.
  - intros now soup i evs Hi H. apply page_events_ok in H.
    unfold _parse_tracking_response. rewrite Hi. simpl. rewrite H. simpl.
    eexists. split; reflexivity.
  - vm_compute. reflexivity.
  - vm_compute. reflexivity.
  - eexists. split; vm_compute; reflexivity.
  - vm_compute. reflexivity.
  - vm_compute. reflexivity.
  - eexists. split; vm_compute; reflexivity.
Qed.

(** ** Tracking *)

Lemma create_events_fold (evs : list RawEvent) : forall info,
  fold_left (fun info event =>
               create_event info (ev_location event) (ev_timestamp event)
                            (ev_message event)) evs info =
  mk_info (info_tracking_number info) (events info ++ map to_event evs)
          (info_is_delivered info) (delivery_date info).
Proof.
  induction evs as [| ev evs IH]; intros info; simpl.
  - rewrite app_nil_r. destruct info; reflexivity.
  - rewrite IH. unfold create_event. simpl. rewrite <- app_assoc. reflexivity.
Qed.

(** What a successful [track] has done. *)
Lemma track_ok_inv (acc : Accessors) (w : World) (tn : string)
    (t : list action) (info : TrackingInfo) :
  track acc w tn = (t, Ok info) ->
  exists data s,
    info_tracking_number info = tn /\
    events info = map to_event (pd_events data) /\
    status acc (events info) = Ok s /\
    info_is_delivered info = String.eqb (Str.lower s) "delivered" /\
    (if info_is_delivered info
     then exists d, last_update acc (events info) = Ok d /\ delivery_date info = Some d
     else delivery_date info = None).
Proof.
  unfold track. rewrite get_tracking_data_kw_parsed.
  destruct (_get_tracking_data _ _ _ _) as [t0 [data | x]]; [| discriminate].
  unfold mbind at 1, comp_bind at 1.
  rewrite create_events_fold. cbn [mbind comp_bind new_info events info_tracking_number
    info_is_delivered delivery_date app].
  unfold status_is_delivered. cbn [events].
  destruct (status acc (map to_event (pd_events data))) as [s | x] eqn:Es;
    [| discriminate].
  cbn [mbind result_bind lift].
  destruct (String.eqb (Str.lower s) "delivered") eqn:Ed.
  - destruct (last_update acc (map to_event (pd_events data))) as [d | x] eqn:El;
      [| discriminate].
    cbn. intros [= _ <-]. exists data, s. cbn. rewrite Ed. eauto 10.
  - cbn. intros [= _ <-]. exists data, s. cbn. rewrite Ed. eauto 10.
Qed.



(** * Further properties of the backend *)

(** ** One fetch per call *)

(** What [track] does once the page data is at hand leaves no trace. *)
Lemma track_after_fetch (acc : Accessors) (w : World) (tn : string)
    (t0 : list action) (data : RawPageData) :
  _get_tracking_data w (segment_or_zero (Str.split ":" tn) 0)
                       (segment_or_zero (Str.split ":" tn) 1)
                       (segment_or_zero (Str.split ":" tn) 2) = (t0, Ok data) ->
  exists r,
    track acc w tn = (t0, r) /\
    (forall info, r = Ok info ->
       info_tracking_number info = tn /\
       events info = map to_event (pd_events data)) /\
    (forall e, r = Raise e ->
       status acc (map to_event (pd_events data)) = Raise e \/
       last_update acc (map to_event (pd_events data)) = Raise e).
Proof.
  intros H. unfold track. rewrite get_tracking_data_kw_parsed, H.
  unfold mbind at 1, comp_bind at 1.
  rewrite create_events_fold.
  cbn [new_info events info_tracking_number info_is_delivered delivery_date app].
  unfold status_is_delivered. cbn [events].
  destruct (status acc (map to_event (pd_events data))) as [s | x] eqn:Es.
  - cbn [mbind result_bind lift comp_bind].
    destruct (String.eqb (Str.lower s) "delivered").
    + destruct (last_update acc (map to_event (pd_events data))) as [d | x] eqn:El.
      * cbn. rewrite !app_nil_r. eexists. split; [reflexivity |].
        split; [intros info [= <-]; auto | discriminate].
      * cbn. rewrite !app_nil_r. eexists. split; [reflexivity |].
        split; [discriminate |]. intros e [= <-]. auto.
    + cbn. rewrite !app_nil_r. eexists. split; [reflexivity |].
      split; [intros info [= <-]; auto | discriminate].
  - cbn. rewrite !app_nil_r. eexists. split; [reflexivity |].
    split; [discriminate |]. intros e [= <-]. auto.
Qed.

(** X1. [url] never fails, and every call of [track] makes exactly one
    fetch, of the address [url] gives, followed by at most one parse of
    the body that was fetched. *)
Theorem track_fetches_url_once (acc : Accessors) (w : World) (tn : string) :
  exists u,
    url tn = Ok u /\
    (fst (track acc w tn) = [Fetch u] \/
     exists r, http_get w u = inr r /\
               fst (track acc w tn) = [Fetch u; ParseHtml (content r)]).
Proof.
  eexists. split; [apply url_value |].
  set (o := segment_or_zero (Str.split ":" tn) 0).
  set (i := segment_or_zero (Str.split ":" tn) 1).
  set (p := segment_or_zero (Str.split ":" tn) 2).
  destruct (http_get w (format_url o i p)) as [err | r] eqn:Eg.
  - left. rewrite (track_fetch_failure acc w tn _ _
                     (get_tracking_data_transport_error w o i p err Eg)).
    reflexivity.
  - destruct (ok r) eqn:Eo.
    + destruct (Str.contains "carrierRelatedInfo-trackingId-text" (content r)) eqn:Ec.
      * right. exists r. split; [reflexivity |].
        pose proof (get_tracking_data_parsed w o i p r Eg Eo Ec) as Hp.
        destruct (_parse_tracking_response (now_year w) (html_parser w (content r)))
          as [data | e].
        -- destruct (track_after_fetch acc w tn _ data Hp) as (res & -> & _).
           reflexivity.
        -- rewrite (track_fetch_failure acc w tn _ _ Hp). reflexivity.
      * left. rewrite (track_fetch_failure acc w tn _ _
                         (get_tracking_data_no_marker w o i p r Eg Eo Ec)).
        reflexivity.
    + left. rewrite (track_fetch_failure acc w tn _ _
                       (get_tracking_data_bad_status w o i p r Eg Eo)).
      reflexivity.
Qed.

(** X2. When the fetch itself raises, [track] fails with
    [TrackingApiFailure] wrapping what was raised, after that one fetch
    and without parsing anything. *)
Theorem track_transport_error_is_api_failure (acc : Accessors) (w : World)
    (tn u err : string) :
  url tn = Ok u ->
  http_get w u = inl err ->
  track acc w tn = ([Fetch u], Raise (TrackingApiFailure err)).
Proof.
  rewrite url_value. intros [= <-] Hget.
  apply track_fetch_failure, get_tracking_data_transport_error. exact Hget.
Qed.

(** X2 in a world where the carrier cannot be reached. *)
Lemma track_transport_error_example :
  track Fixture.accessors Scenario.unreachable "111-2222222-3333333" =
  ([Fetch Fixture.tracked_url], Raise (TrackingApiFailure "Connection timed out")).
Proof.
  exact (track_transport_error_is_api_failure Fixture.accessors Scenario.unreachable
           "111-2222222-3333333" Fixture.tracked_url "Connection timed out"
           eq_refl eq_refl).
Defined.

(** X3. A record returned by [track] comes from a successful response
    that contains the marker: the trace is the fetch and the parse of that
    body, the record keeps the tracking number it was asked for, and its
    events are the events extracted from the page, one for one and in the
    same order. *)
Theorem track_success_comes_from_page (acc : Accessors) (w : World)
    (tn u : string) (t : list action) (info : TrackingInfo) :
  url tn = Ok u ->
  track acc w tn = (t, Ok info) ->
  exists r data,
    http_get w u = inr r /\ ok r = true /\
    occurs_in "carrierRelatedInfo-trackingId-text" (content r) /\
    t = [Fetch u; ParseHtml (content r)] /\
    _parse_tracking_response (now_year w) (html_parser w (content r)) = Ok data /\
    info_tracking_number info = tn /\
    events info = map to_event (pd_events data).
Proof.
  rewrite url_value. intros [= <-] H.
  set (o := segment_or_zero (Str.split ":" tn) 0) in *.
  set (i := segment_or_zero (Str.split ":" tn) 1) in *.
  set (p := segment_or_zero (Str.split ":" tn) 2) in *.
  destruct (http_get w (format_url o i p)) as [err | r] eqn:Eg.
  - rewrite (track_fetch_failure acc w tn _ _
               (get_tracking_data_transport_error w o i p err Eg)) in H.
    discriminate.
  - destruct (ok r) eqn:Eo.
    + destruct (Str.contains "carrierRelatedInfo-trackingId-text" (content r)) eqn:Ec.
      * pose proof (get_tracking_data_parsed w o i p r Eg Eo Ec) as Hp.
        destruct (_parse_tracking_response (now_year w) (html_parser w (content r)))
          as [data | e] eqn:Ep.
        -- destruct (track_after_fetch acc w tn _ data Hp) as (res & Ht & Hok & _).
           rewrite Ht in H. injection H as <- ->.
           destruct (Hok info eq_refl) as [Htn Hev].
           exists r, data. repeat split; try assumption; try reflexivity.
           apply StrFacts.contains_spec. exact Ec.
        -- rewrite (track_fetch_failure acc w tn _ _ Hp) in H. discriminate.
      * rewrite (track_fetch_failure acc w tn _ _
                   (get_tracking_data_no_marker w o i p r Eg Eo Ec)) in H.
        discriminate.
    + rewrite (track_fetch_failure acc w tn _ _
                 (get_tracking_data_bad_status w o i p r Eg Eo)) in H.
      discriminate.
Qed.

(** X3 on the fixture page. *)
Lemma track_success_example :
  exists r data,
    http_get Fixture.world Fixture.tracked_url = inr r /\ ok r = true /\
    occurs_in "carrierRelatedInfo-trackingId-text" (content r) /\
    [Fetch Fixture.tracked_url; ParseHtml Fixture.body] =
      [Fetch Fixture.tracked_url; ParseHtml (content r)] /\
    _parse_tracking_response (now_year Fixture.world)
      (html_parser Fixture.world (content r)) = Ok data /\
    info_tracking_number Fixture.tracked_info = "111-2222222-3333333" /\
    events Fixture.tracked_info = map to_event (pd_events data).
Proof.
  apply (track_success_comes_from_page Fixture.accessors Fixture.world
           "111-2222222-3333333" Fixture.tracked_url).
  - reflexivity.
  - vm_compute. reflexivity.
Defined.

(** ** [is_delivered] *)

(** X4. Given a record, [is_delivered] makes no fetch and ignores the
    tracking number; given none, it does what [track] does, makes the same
    calls, and answers with the flag [track] stored in the record (or
    fails as [track] fails). *)
Theorem is_delivered_agrees_with_track (acc : Accessors) (w : World) (tn : string) :
  (forall info tn', fst (is_delivered acc w tn (Some info)) = [] /\
                    is_delivered acc w tn' (Some info) =
                    is_delivered acc w tn (Some info)) /\
  (forall t info, track acc w tn = (t, Ok info) ->
                  is_delivered acc w tn None = (t, Ok (info_is_delivered info))) /\
  (forall t e, track acc w tn = (t, Raise e) ->
               is_delivered acc w tn None = (t, Raise e)).
Proof.
  split; [| split].
  - intros info tn'. split; [| reflexivity].
    unfold is_delivered. cbn. destruct (status_is_delivered acc info); reflexivity.
  - intros t info H. unfold is_delivered. rewrite H.
    apply track_ok_inv in H as (data & s & _ & _ & Hs & Hd & _).
    unfold mbind at 1, comp_bind, lift, status_is_delivered. rewrite Hs. cbn.
    rewrite Hd, app_nil_r. reflexivity.
  - intros t e H. unfold is_delivered. rewrite H. reflexivity.
Qed.

(** ** Failures *)

Lemma collect_raise {A B : Type} (f : A -> result (list B)) (l : list A) (e : exn) :
  collect f l = Raise e -> exists x, In x l /\ f x = Raise e.
Proof.
  induction l as [| x l IH]; simpl; [discriminate |].
  unfold mbind, result_bind.
  destruct (f x) as [ys | e'] eqn:Ef.
  - destruct (collect f l) as [zs | e'']; [discriminate |].
    intros [= ->]. destruct (IH eq_refl) as (x' & Hin & Hx). eauto.
  - intros [= ->]. eauto.
Qed.

Lemma parse_timestamp_raise (now : Z) (ts : string) (y : option string) (e : exn) :
  _parse_timestamp now ts y = Raise e -> e = TypeError.
Proof.
  rewrite parse_timestamp_unfold. cbv zeta.
  destruct (Strptime.strptime _ _); [discriminate |].
  destruct (Strptime.strptime _ _); [discriminate |].
  intros [= <-]. reflexivity.
Qed.

Lemma raw_event_raise (now : Z) (c r : node) (e : exn) :
  raw_event now c r = Raise e -> e = TypeError.
Proof.
  unfold raw_event, mbind, result_bind.
  destruct (_parse_timestamp _ _ _) as [t | e'] eqn:Et; [discriminate |].
  intros [= <-]. exact (parse_timestamp_raise _ _ _ _ Et).
Qed.

(** A failure of the comprehension comes from a surviving sub-row. *)
Lemma page_events_raise_inv (now : Z) (soup : node) (e : exn) :
  page_events now soup = Raise e ->
  e = TypeError /\
  exists cr, In cr (List.filter survives (document_rows soup)) /\
             raw_event now (fst cr) (snd cr) = Raise TypeError.
Proof.
  intros H. unfold page_events in H.
  apply collect_raise in H as (c & Hc & H).
  destruct (not_ignored c) eqn:Ec; [| discriminate].
  unfold row_events in H. apply collect_raise in H as (r & Hr & H).
  destruct (not_ignored r) eqn:Er; [| discriminate].
  unfold mbind, result_bind in H.
  destruct (raw_event now c r) as [ev | e'] eqn:Ee; [discriminate |].
  injection H as ->. pose proof (raw_event_raise _ _ _ _ Ee) as ->.
  split; [reflexivity |]. exists (c, r). split; [| exact Ee].
  apply filter_In. split.
  - unfold document_rows. apply in_flat_map. exists c. split; [exact Hc |].
    apply in_map. exact Hr.
  - unfold survives. simpl. rewrite Ec, Er. reflexivity.
Qed.

(** X5. When the extraction of the events fails, a sub-row that survives
    the denylist (in a container that survives it) has a time and date
    that neither format parses, and the failure is the [TypeError] of the
    timestamp resolver: the text of skipped rows and containers is never
    parsed and cannot make the extraction fail. *)
Theorem page_events_failure_has_surviving_row (now : Z) (soup : node) (e : exn) :
  page_events now soup = Raise e ->
  e = TypeError /\
  exists cr, In cr (List.filter survives (document_rows soup)) /\
             raw_event now (fst cr) (snd cr) = Raise TypeError.
Proof. intros H. exact (page_events_raise_inv now soup e H). Qed.

(** X5 on the page whose only row has no parseable date. *)
Lemma page_events_failure_example :
  TypeError = TypeError /\
  exists cr, In cr (List.filter survives (document_rows Fixture.undated_page)) /\
             raw_event 2024 (fst cr) (snd cr) = Raise TypeError.
Proof.
  apply (page_events_failure_has_surviving_row 2024 Fixture.undated_page TypeError).
  vm_compute. reflexivity.
Defined.

(** X7. The marker test looks at the text of the body, not at its
    elements: when the body mentions the marker but the parsed page has no
    element of class [carrierRelatedInfo-trackingId-text], the response
    passes the test and [track] fails with [IndexError] (the last word of
    an empty text), after fetching and parsing. *)
Theorem track_without_id_element_is_index_error (acc : Accessors) (w : World)
    (tn u : string) (r : response) :
  url tn = Ok u ->
  http_get w u = inr r ->
  ok r = true ->
  occurs_in "carrierRelatedInfo-trackingId-text" (content r) ->
  Soup.find (Soup.class_ "carrierRelatedInfo-trackingId-text")
            (html_parser w (content r)) = None ->
  track acc w tn = ([Fetch u; ParseHtml (content r)], Raise IndexError).
Proof.
  rewrite url_value. intros [= <-] Hget Hok Hocc Hfind.
  apply StrFacts.contains_spec in Hocc.
  apply track_fetch_failure.
  rewrite (get_tracking_data_parsed _ _ _ _ r Hget Hok Hocc).
  unfold _parse_tracking_response, _find. rewrite Hfind. reflexivity.
Qed.

(** X7 on a page that mentions the marker in a script only. *)
Lemma track_without_id_element_example :
  track Fixture.accessors Scenario.world_without_id "111-2222222-3333333" =
  ([Fetch Fixture.tracked_url;
    ParseHtml "<script>var c = 'carrierRelatedInfo-trackingId-text';</script>"],
   Raise IndexError).
Proof.
  apply (track_without_id_element_is_index_error Fixture.accessors
           Scenario.world_without_id "111-2222222-3333333" Fixture.tracked_url
           (mk_response true 200
              "<script>var c = 'carrierRelatedInfo-trackingId-text';</script>")
           eq_refl eq_refl eq_refl).
  - apply StrFacts.contains_spec. vm_compute. reflexivity.
  - vm_compute. reflexivity.
Defined.

(** ** Splitting and joining *)

Module SplitFacts.

Lemma split_without_sep sep s :
  ~ In sep (Str.chars s) -> Str.split sep s = [s].
Proof.
  induction s as [| c s IH]; simpl; [reflexivity |].
  intros H. destruct (Ascii.eqb c sep) eqn:E.
  - apply Ascii.eqb_eq in E. tauto.
  - rewrite IH by tauto. reflexivity.
Qed.

Lemma split_at_first_sep sep s t :
  ~ In sep (Str.chars s) ->
  Str.split sep (s +:+ String sep t) = s :: Str.split sep t.
Proof.
  induction s as [| c s IH]; simpl.
  - rewrite Ascii.eqb_refl. reflexivity.
  - intros H. destruct (Ascii.eqb c sep) eqn:E.
    + apply Ascii.eqb_eq in E. tauto.
    + rewrite IH by tauto. reflexivity.
Qed.

Lemma of_chars_app (l1 l2 : list ascii) :
  Str.of_chars (l1 ++ l2) = Str.of_chars l1 +:+ Str.of_chars l2.
Proof. induction l1 as [| c l1 IH]; simpl; [reflexivity | rewrite IH; reflexivity]. Qed.

Lemma append_empty_r (s : string) : s +:+ EmptyString = s.
Proof.
  induction s as [| c s IH]; [reflexivity |].
  change (String c (s +:+ EmptyString) = String c s). rewrite IH. reflexivity.
Qed.

Lemma chars_of_chars (l : list ascii) : Str.chars (Str.of_chars l) = l.
Proof. apply list_ascii_of_string_of_list_ascii. Qed.

Lemma of_chars_chars (s : string) : Str.of_chars (Str.chars s) = s.
Proof. apply string_of_list_ascii_of_string. Qed.

Lemma length_of_chars (l : list ascii) : String.length (Str.of_chars l) = length l.
Proof. induction l as [| c l IH]; simpl; [reflexivity | f_equal; exact IH]. Qed.

End SplitFacts.

Lemma query_of_three (a b c : pyval) :
  <["package_idx" := c]> (<["item_id" := b]> (<["order_id" := a]> ∅)) =
  ({[ "order_id" := a; "item_id" := b; "package_idx" := c ]} : gmap string pyval).
Proof.
  apply map_eq. intros k.
  destruct (decide (k = "order_id")) as [-> | ?]; [reflexivity |].
  destruct (decide (k = "item_id")) as [-> | ?]; [reflexivity |].
  destruct (decide (k = "package_idx")) as [-> | ?]; [reflexivity |].
  by simplify_map_eq.
Qed.

(** X8. Joining an order id, an item id and a package index that contain
    no colon with colons and parsing the result gives them back under
    their keys; with fewer parts the missing ones are the integer [0]. The
    address built from the parsed query places them verbatim (no
    escaping) in the [orderId], [itemId] and [packageIndex] parameters. *)
Theorem parse_tracking_number_round_trip (o i p : string) :
  no_colon o -> no_colon i -> no_colon p ->
  _parse_tracking_number o =
    {[ "order_id" := PStr o; "item_id" := PInt 0; "package_idx" := PInt 0 ]} /\
  _parse_tracking_number (o +:+ ":" +:+ i) =
    {[ "order_id" := PStr o; "item_id" := PStr i; "package_idx" := PInt 0 ]} /\
  _parse_tracking_number (o +:+ ":" +:+ i +:+ ":" +:+ p) =
    {[ "order_id" := PStr o; "item_id" := PStr i; "package_idx" := PStr p ]} /\
  url (o +:+ ":" +:+ i +:+ ":" +:+ p) =
    Ok ("https://www.amazon.com/progress-tracker/package/?itemId=" +:+ i
        +:+ "&orderId=" +:+ o +:+ "&packageIndex=" +:+ p).
Proof.
  intros Ho Hi Hp.
  assert (E1 : Str.split ":" o = [o]) by (apply SplitFacts.split_without_sep; exact Ho).
  assert (E2 : Str.split ":" (o +:+ ":" +:+ i) = [o; i]).
  { change (o +:+ ":" +:+ i) with (o +:+ String ":" i).
    rewrite SplitFacts.split_at_first_sep by exact Ho.
    rewrite SplitFacts.split_without_sep by exact Hi. reflexivity. }
  assert (E3 : Str.split ":" (o +:+ ":" +:+ i +:+ ":" +:+ p) = [o; i; p]).
  { change (o +:+ ":" +:+ i +:+ ":" +:+ p) with (o +:+ String ":" (i +:+ String ":" p)).
    rewrite SplitFacts.split_at_first_sep by exact Ho.
    rewrite SplitFacts.split_at_first_sep by exact Hi.
    rewrite SplitFacts.split_without_sep by exact Hp. reflexivity. }
  repeat split.
  - rewrite parse_tracking_number_unfold, E1. apply query_of_three.
  - rewrite parse_tracking_number_unfold, E2. apply query_of_three.
  - rewrite parse_tracking_number_unfold, E3. apply query_of_three.
  - rewrite url_value, E3. reflexivity.
Qed.

(** X8 on an order id with an item id and a package index. *)
Lemma parse_tracking_number_round_trip_example :
  _parse_tracking_number "111-2222222-3333333" =
    {[ "order_id" := PStr "111-2222222-3333333"; "item_id" := PInt 0;
       "package_idx" := PInt 0 ]} /\
  _parse_tracking_number ("111-2222222-3333333" +:+ ":" +:+ "ABC") =
    {[ "order_id" := PStr "111-2222222-3333333"; "item_id" := PStr "ABC";
       "package_idx" := PInt 0 ]} /\
  _parse_tracking_number ("111-2222222-3333333" +:+ ":" +:+ "ABC" +:+ ":" +:+ "5") =
    {[ "order_id" := PStr "111-2222222-3333333"; "item_id" := PStr "ABC";
       "package_idx" := PStr "5" ]} /\
  url ("111-2222222-3333333" +:+ ":" +:+ "ABC" +:+ ":" +:+ "5") =
    Ok ("https://www.amazon.com/progress-tracker/package/?itemId=" +:+ "ABC"
        +:+ "&orderId=" +:+ "111-2222222-3333333" +:+ "&packageIndex=" +:+ "5").
Proof.
  apply (parse_tracking_number_round_trip "111-2222222-3333333" "ABC" "5");
    unfold no_colon; vm_compute; intuition discriminate.
Defined.

Lemma digits_have_no_colon (l : list ascii) :
  Forall (fun x => Chars.is_digit x = true) l -> ~ In ":"%char l.
Proof.
  intros HF Hin. rewrite Forall_forall in HF.
  apply list_elem_of_In in Hin. specialize (HF _ Hin). vm_compute in HF. discriminate.
Qed.

Lemma words_have_no_colon (l : list ascii) :
  Forall (fun x => Chars.is_word x = true) l -> ~ In ":"%char l.
Proof.
  intros HF Hin. rewrite Forall_forall in HF.
  apply list_elem_of_In in Hin. specialize (HF _ Hin). vm_compute in HF. discriminate.
Qed.

(** X9. For a tracking number of exactly the recognised shape, the
    order id of the query is its first 19 characters, the item id is the
    token after the colon (the integer [0] when there is none), and the
    package index is always [0]: the recognised shape has no place for
    one. *)
Theorem recognised_number_query (tn : string) :
  tn_shape (Str.chars tn) ->
  exists order,
    String.length order = 19%nat /\
    _parse_tracking_number tn !! "order_id" = Some (PStr order) /\
    _parse_tracking_number tn !! "package_idx" = Some (PInt 0) /\
    ((tn = order /\ _parse_tracking_number tn !! "item_id" = Some (PInt 0)) \/
     (exists token, tn = order +:+ ":" +:+ token /\ token <> EmptyString /\
                    _parse_tracking_number tn !! "item_id" = Some (PStr token))).
Proof.
  intros (a & b & c & tok & La & Lb & Lc & HF & Htok & E).
  rewrite !Forall_app in HF. destruct HF as (Fa & Fb & Fc).
  set (ol := a ++ "-"%char :: b ++ "-"%char :: c).
  assert (Hol : ~ In ":"%char ol).
  { unfold ol. rewrite in_app_iff. simpl. rewrite in_app_iff. simpl.
    pose proof (digits_have_no_colon _ Fa). pose proof (digits_have_no_colon _ Fb).
    pose proof (digits_have_no_colon _ Fc).
    intros [? | [? | [? | [? | ?]]]]; try tauto; discriminate. }
  assert (Etn : tn = Str.of_chars ol +:+ Str.of_chars tok).
  { rewrite <- SplitFacts.of_chars_app, <- (SplitFacts.of_chars_chars tn), E.
    unfold ol. f_equal. rewrite <- !app_assoc. simpl. rewrite <- !app_assoc. reflexivity. }
  assert (Hno : ~ In ":"%char (Str.chars (Str.of_chars ol)))
    by (rewrite SplitFacts.chars_of_chars; exact Hol).
  exists (Str.of_chars ol). split.
  { rewrite SplitFacts.length_of_chars. unfold ol.
    rewrite length_app. simpl. rewrite length_app. simpl. lia. }
  destruct (parse_tracking_number_lookup tn) as (-> & -> & ->).
  destruct Htok as [-> | (w & -> & Hne & HFw)].
  - simpl in Etn. rewrite SplitFacts.append_empty_r in Etn.
    assert (Es : Str.split ":" tn = [Str.of_chars ol]).
    { rewrite Etn. apply SplitFacts.split_without_sep. exact Hno. }
    rewrite Es. repeat split. left. split; [exact Etn | reflexivity].
  - simpl in Etn.
    assert (Es : Str.split ":" tn = [Str.of_chars ol; Str.of_chars w]).
    { rewrite Etn.
      rewrite SplitFacts.split_at_first_sep by exact Hno.
      rewrite SplitFacts.split_without_sep; [reflexivity |].
      rewrite SplitFacts.chars_of_chars. apply words_have_no_colon. exact HFw. }
    rewrite Es. repeat split. right. exists (Str.of_chars w).
    split; [exact Etn |]. split; [| reflexivity].
    destruct w; [contradiction | discriminate].
Qed.

(** X9 on a tracking number with a token. *)
Lemma recognised_number_query_example :
  exists order,
    String.length order = 19%nat /\
    _parse_tracking_number "111-2222222-3333333:ABC" !! "order_id" = Some (PStr order) /\
    _parse_tracking_number "111-2222222-3333333:ABC" !! "package_idx" = Some (PInt 0) /\
    (("111-2222222-3333333:ABC"%string = order /\
      _parse_tracking_number "111-2222222-3333333:ABC" !! "item_id" = Some (PInt 0)) \/
     (exists token, "111-2222222-3333333:ABC"%string = order +:+ ":" +:+ token /\
                    token <> EmptyString /\
                    _parse_tracking_number "111-2222222-3333333:ABC" !! "item_id" =
                    Some (PStr token))).
Proof.
  apply (recognised_number_query "111-2222222-3333333:ABC").
  apply TN_REGEX_shape, ReFacts.fullmatch_lang. vm_compute. reflexivity.
Defined.

(** ** The range of the timestamps *)

Module StrptimeFacts.
Import Strptime.

Lemma eat_matches alt : forall s m rest,
  eat alt s = Some (m, rest) -> matches_alternative alt m.
Proof.
  unfold matches_alternative.
  induction alt as [| p alt IH]; intros s m rest H; simpl in H.
  - injection H as <- _. constructor.
  - destruct s as [| c s]; [discriminate |].
    destruct (p c) eqn:Ep; [| discriminate].
    destruct (eat alt s) as [[m' rest'] |] eqn:Ee; [| discriminate].
    injection H as <- _. constructor; [exact Ep | exact (IH _ _ _ Ee)].
Qed.

Lemma step_captures it caps s caps' s' :
  In (caps', s') (step it caps s) ->
  Forall capture_ok caps -> Forall capture_ok caps'.
Proof.
  destruct it as [c | | d]; simpl; intros Hin Hok.
  - destruct s as [| x s]; [contradiction |].
    destruct (Ascii.eqb _ _); [| contradiction].
    destruct Hin as [[= <- _] | []]. exact Hok.
  - apply in_map_iff in Hin as (s0 & [= <- _] & _). exact Hok.
  - apply list_elem_of_In, list_elem_of_omap in Hin as (alt & Halt & H).
    destruct (eat alt s) as [[m rest] |] eqn:Ee; [| discriminate].
    injection H as <- _. constructor; [| exact Hok].
    exists alt. split; [apply list_elem_of_In; exact Halt |].
    exact (eat_matches _ _ _ _ Ee).
Qed.

Lemma run_captures its : forall caps s caps' s',
  In (caps', s') (run its caps s) ->
  Forall capture_ok caps -> Forall capture_ok caps'.
Proof.
  induction its as [| it its IH]; simpl; intros caps s caps' s' Hin Hok.
  - destruct Hin as [[= <- _] | []]. exact Hok.
  - apply in_flat_map in Hin as ([caps1 s1] & Hstep & Hrun).
    exact (IH _ _ _ _ Hrun (step_captures _ _ _ _ _ Hstep Hok)).
Qed.

Lemma found_capture caps d t :
  found caps d = Some t -> Forall capture_ok caps -> capture_ok (d, t).
Proof.
  unfold found. intros H Hok.
  destruct (List.find _ caps) as [[d' t'] |] eqn:Ef; [| discriminate].
  injection H as <-. apply find_some in Ef as [Hin Hd].
  rewrite Forall_forall in Hok. apply list_elem_of_In in Hin.
  specialize (Hok _ Hin). simpl in Hd.
  assert (d' = d) as <- by (destruct d', d; simpl in Hd; congruence).
  exact Hok.
Qed.

Lemma range_is_digit lo hi c :
  range lo hi c = true ->
  Chars.is_digit lo = true -> Chars.is_digit hi = true ->
  Chars.is_digit c = true /\
  Chars.digit_value lo <= Chars.digit_value c <= Chars.digit_value hi.
Proof.
  unfold range, Chars.is_digit, Chars.between, Chars.digit_value.
  change (Chars.code "0") with 48%N. change (Chars.code "9") with 57%N.
  rewrite !andb_true_iff, !N.leb_le. lia.
Qed.

Lemma digit_is_digit c :
  digit c = true -> Chars.is_digit c = true /\ 0 <= Chars.digit_value c <= 9.
Proof.
  intros H. apply (range_is_digit "0" "9" c); [exact H | reflexivity | reflexivity].
Qed.

Lemma int_one c : Chars.is_digit c = true -> int [c] = Chars.digit_value c.
Proof. intros H. unfold int. simpl. rewrite H. lia. Qed.

Lemma int_two c1 c2 :
  Chars.is_digit c1 = true -> Chars.is_digit c2 = true ->
  int [c1; c2] = 10 * Chars.digit_value c1 + Chars.digit_value c2.
Proof. intros H1 H2. unfold int. simpl. rewrite H1, H2. lia. Qed.

Ltac two_chars H :=
  inversion H as [| ? c1 ? ? Hc1 H']; subst; clear H;
  inversion H' as [| ? c2 ? ? Hc2 H'']; subst; clear H';
  inversion H''; subst; clear H''.

Ltac one_char H :=
  inversion H as [| ? c1 ? ? Hc1 H']; subst; clear H;
  inversion H'; subst; clear H'.

(** The hour group matches 1 to 12. *)
Lemma hour_capture t : capture_ok (dI, t) -> 1 <= int t <= 12.
Proof.
  intros (alt & Hin & Hm). unfold matches_alternative in Hm. simpl in Hin, Hm.
  destruct Hin as [<- | [<- | [<- | []]]].
  - two_chars Hm. apply Ascii.eqb_eq in Hc1 as <-.
    destruct (range_is_digit _ _ _ Hc2 eq_refl eq_refl) as [Hd Hv].
    rewrite int_two by (reflexivity || exact Hd).
    change (Chars.digit_value "1") with 1. change (Chars.digit_value "0") with 0 in Hv.
    change (Chars.digit_value "2") with 2 in Hv. lia.
  - two_chars Hm. apply Ascii.eqb_eq in Hc1 as <-.
    destruct (range_is_digit _ _ _ Hc2 eq_refl eq_refl) as [Hd Hv].
    rewrite int_two by (reflexivity || exact Hd).
    change (Chars.digit_value "0") with 0. change (Chars.digit_value "1") with 1 in Hv.
    change (Chars.digit_value "9") with 9 in Hv. lia.
  - one_char Hm.
    destruct (range_is_digit _ _ _ Hc1 eq_refl eq_refl) as [Hd Hv].
    rewrite int_one by exact Hd.
    change (Chars.digit_value "1") with 1 in Hv.
    change (Chars.digit_value "9") with 9 in Hv. lia.
Qed.

(** The minute group matches 0 to 59. *)
Lemma minute_capture t : capture_ok (dM, t) -> 0 <= int t <= 59.
Proof.
  intros (alt & Hin & Hm). unfold matches_alternative in Hm. simpl in Hin, Hm.
  destruct Hin as [<- | [<- | []]].
  - two_chars Hm.
    destruct (range_is_digit _ _ _ Hc1 eq_refl eq_refl) as [Hd1 Hv1].
    destruct (digit_is_digit _ Hc2) as [Hd2 Hv2].
    rewrite int_two by assumption.
    change (Chars.digit_value "0") with 0 in Hv1.
    change (Chars.digit_value "5") with 5 in Hv1. lia.
  - one_char Hm. destruct (digit_is_digit _ Hc1) as [Hd Hv].
    rewrite int_one by exact Hd. lia.
Qed.

Lemma build_whole_minute caps d :
  build caps = Some d -> Forall capture_ok caps -> whole_minute d.
Proof.
  unfold build. cbv zeta. intros H Hok.
  destruct (match found caps dB with Some _ => _ | None => _ end) as [m |];
    [| discriminate].
  destruct (valid_date _ m _) eqn:Ev; [| discriminate].
  injection H as <-. unfold whole_minute. simpl.
  split; [exact Ev |]. split; [| split; [| split; reflexivity]].
  - destruct (found caps dI) as [t |] eqn:EI; [| lia].
    pose proof (hour_capture _ (found_capture _ _ _ EI Hok)) as Hh.
    destruct (_ || _)%bool; [destruct (int t =? 12) eqn:E12; lia |].
    destruct (String.eqb _ "pm"); [| lia].
    destruct (int t =? 12) eqn:E12; [lia |].
    apply Z.eqb_neq in E12. lia.
  - destruct (found caps dM) as [t |] eqn:EM; simpl; [| lia].
    exact (minute_capture _ (found_capture _ _ _ EM Hok)).
Qed.

Lemma strptime_whole_minute data fmt d :
  strptime data fmt = Some d -> whole_minute d.
Proof.
  unfold strptime. destruct (compile _) as [its |]; [| discriminate].
  destruct (run its [] (Str.chars data)) as [| [caps rest] others] eqn:Er;
    [discriminate |].
  destruct rest; [| discriminate]. intros H.
  apply (build_whole_minute caps d H).
  apply (run_captures its [] (Str.chars data) caps []); [| constructor].
  rewrite Er. left. reflexivity.
Qed.

End StrptimeFacts.

(** X12. Whenever the timestamp resolver returns a point in time, it is
    one the [datetime] constructor accepts (year 1 to 9999, a month, a day
    of that month in that year), with an hour from 0 to 23, a minute from
    0 to 59, and no seconds or microseconds. *)
Theorem parse_timestamp_is_whole_minute (now : Z) (ts : string)
    (y : option string) (d : datetime) :
  _parse_timestamp now ts y = Ok d -> whole_minute d.
Proof.
  rewrite parse_timestamp_unfold. cbv zeta.
  destruct (Strptime.strptime _ "%I:%M %p %A, %B %d %Y") as [t |] eqn:E1.
  - intros [= <-]. exact (StrptimeFacts.strptime_whole_minute _ _ _ E1).
  - destruct (Strptime.strptime _ "%A, %B %d %Y") as [t |] eqn:E2; [| discriminate].
    intros [= <-]. exact (StrptimeFacts.strptime_whole_minute _ _ _ E2).
Qed.

(** X12 on an afternoon time. *)
Lemma parse_timestamp_is_whole_minute_example :
  whole_minute (mk_datetime 2024 6 10 15 15 0 0).
Proof.
  apply (parse_timestamp_is_whole_minute 2024 "3:15 PM Monday, June 10" (Some "2024"%string)).
  vm_compute. reflexivity.
Defined.

(** ** Date-only rows *)

Module DateOnlyFacts.
Import Strptime.

Lemma step_directives it caps s caps' s' :
  In (caps', s') (step it caps s) ->
  forall cap, In cap caps' -> In cap caps \/ it = Dir (fst cap).
Proof.
  destruct it as [c | | d]; simpl; intros Hin cap Hcap.
  - destruct s as [| x s]; [contradiction |].
    destruct (Ascii.eqb _ _); [| contradiction].
    destruct Hin as [[= <- _] | []]. left. exact Hcap.
  - apply in_map_iff in Hin as (s0 & [= <- _] & _). left. exact Hcap.
  - apply list_elem_of_In, list_elem_of_omap in Hin as (alt & _ & H).
    destruct (eat alt s) as [[m rest] |]; [| discriminate].
    injection H as <- _. destruct Hcap as [<- | Hcap]; [right; reflexivity | left; exact Hcap].
Qed.

Lemma run_directives its : forall caps s caps' s',
  In (caps', s') (run its caps s) ->
  forall cap, In cap caps' -> In cap caps \/ In (Dir (fst cap)) its.
Proof.
  induction its as [| it its IH]; simpl; intros caps s caps' s' Hin cap Hcap.
  - destruct Hin as [[= <- _] | []]. left. exact Hcap.
  - apply in_flat_map in Hin as ([caps1 s1] & Hstep & Hrun).
    destruct (IH _ _ _ _ Hrun cap Hcap) as [H1 | H1]; [| right; right; exact H1].
    destruct (step_directives _ _ _ _ _ Hstep cap H1) as [H0 | ->];
      [left; exact H0 | right; left; reflexivity].
Qed.

Lemma found_in caps d t : found caps d = Some t -> exists t', In (d, t') caps.
Proof.
  unfold found. intros H.
  destruct (List.find _ caps) as [[d' t'] |] eqn:Ef; [| discriminate].
  apply find_some in Ef as [Hin Hd]. simpl in Hd.
  assert (d' = d) as <- by (destruct d', d; simpl in Hd; congruence).
  eauto.
Qed.

(** The date-only format captures neither an hour nor a minute. *)
Lemma date_only_midnight data d :
  strptime data "%A, %B %d %Y" = Some d -> hour d = 0 /\ minute d = 0.
Proof.
  unfold strptime.
  change (compile (Str.chars "%A, %B %d %Y")) with
    (Some [Dir dA; Lit ","; Space; Dir dB; Space; Dir dd; Space; Dir dY]).
  cbv iota beta.
  destruct (run _ [] (Str.chars data)) as [| [caps rest] others] eqn:Er;
    [discriminate |].
  destruct rest; [| discriminate].
  assert (Hnone : forall dir, dir = dI \/ dir = dM -> found caps dir = None).
  { intros dir Hdir. destruct (found caps dir) as [t |] eqn:Ef; [| reflexivity].
    exfalso. apply found_in in Ef as (t' & Hin).
    assert (Hrun : In (caps, []) (run [Dir dA; Lit ","; Space; Dir dB; Space; Dir dd;
                                       Space; Dir dY] [] (Str.chars data)))
      by (rewrite Er; left; reflexivity).
    destruct (run_directives _ _ _ _ _ Hrun _ Hin) as [[] | H].
    simpl in H. destruct Hdir as [-> | ->];
      repeat (destruct H as [H | H]; [discriminate |]); exact H. }
  unfold build. cbv zeta. rewrite (Hnone dI), (Hnone dM) by tauto.
  destruct (match found caps dB with Some _ => _ | None => _ end); [| discriminate].
  destruct (valid_date _ _ _); [| discriminate].
  intros [= <-]. split; reflexivity.
Qed.

End DateOnlyFacts.

(** X13. When the text has no time of day (the format with the 12-hour
    time does not parse it) and the resolver returns, the point in time is
    midnight of the date: hour and minute are [0]. *)
Theorem date_only_row_is_midnight (now : Z) (ts : string) (y : option string)
    (d : datetime) :
  Strptime.strptime (ts +:+ " " +:+ default (Str.of_Z now) y)
                    "%I:%M %p %A, %B %d %Y" = None ->
  _parse_timestamp now ts y = Ok d ->
  hour d = 0 /\ minute d = 0.
Proof.
  intros H1. rewrite parse_timestamp_unfold. cbv zeta. rewrite H1.
  destruct (Strptime.strptime _ "%A, %B %d %Y") as [t |] eqn:E2; [| discriminate].
  intros [= <-]. exact (DateOnlyFacts.date_only_midnight _ _ E2).
Qed.

(** X13 on a row that carries a date only. *)
Lemma date_only_row_example :
  hour (mk_datetime 2024 6 10 0 0 0 0) = 0 /\
  minute (mk_datetime 2024 6 10 0 0 0 0) = 0.
Proof.
  apply (date_only_row_is_midnight 2024 "Monday, June 10" (Some "2024"%string));
    vm_compute; reflexivity.
Defined.
